(** * Order-processing backend: storage, webhook idempotency, checkout

    A shallow embedding of the TypeScript sources

    - [storage.ts]  (class [MemStorage])
    - [stripe-webhook.ts]  ([handleStripeWebhook])
    - [stripe.ts]  ([createStripeCheckoutSession])
    - [email.ts]  ([sendEmail] and the three notifications)
    - [routes.ts]  ([registerRoutes]: orders, custom orders, contact,
      rating, cart, manual payment and donation routes)

    Modelling conventions.

    - JavaScript objects built with the spread syntax are finite maps from
      field names to values ([gmap string JsValue]); [{...o, f: v}] is
      [<[f := v]> o].
    - A JavaScript [Map] keeps insertion order, which [values()] exposes;
      it is an association list ([JsMap]).  A [Set] that is only queried
      with [has] is a [gset].
    - JavaScript numbers are modelled on their integer values ([Z]);
      [x++] on the order counter is written with its behaviour at [2^53].
      Non-integral numbers in request bodies are outside the model.  A
      number is printed with all its digits, which is what JavaScript
      does for the integers it holds exactly; the statements about
      printed numbers are made for these ([safe_integer],
      [cents_in_range]).
    - Strings are sequences of 8-bit characters.  Case mapping and the
      white space that [parseFloat] skips are modelled for the ASCII
      characters; the statements that depend on them are made for ASCII
      strings ([plain_value], [ascii_initial]).
    - [await]ed calls run to completion one after the other: a handler is
      a function in a state-and-exception monad over the [World].
    - What the outside decides (UUIDs, the clock, whether the database
      or the payment provider fail, what a send of the mail client comes
      to) is an explicit input ([Env], [StripeSdk]). *)

From Stdlib Require Import ZArith String Ascii List Lia Bool.
From stdpp Require Import base option gmap strings pretty list sorting.

Local Open Scope string_scope.
Local Open Scope Z_scope.
Local Open Scope list_scope.

#[local] Set Warnings "-clear-no-such-hyp".

(** ** JavaScript values and objects *)

Inductive JsValue :=
| JUndefined
| JNull
| JBool (b : bool)
| JNum (z : Z)
| JStr (s : string)
| JDate (ms : Z)
| JStrings (l : list string).

Abbreviation JsObject := (gmap string JsValue).

(** [!v] is true (the value is falsy). *)
Definition falsy (v : JsValue) : bool :=
  match v with
  | JUndefined | JNull => true
  | JBool b => negb b
  | JNum z => z =? 0
  | JStr s => if decide (s = "") then true else false
  | JDate _ | JStrings _ => false
  end.

(** [o.f] : a missing field reads as [undefined]. *)
Definition field (o : JsObject) (f : string) : JsValue :=
  default JUndefined (o !! f).

(** [a ?? b] *)
Definition nullish_or (a b : JsValue) : JsValue :=
  match a with
  | JUndefined | JNull => b
  | _ => a
  end.

(** [n.toString()] for an integral number: all its digits.  (JavaScript
    prints an exponent from [10^21] on; the numbers of the statements are
    safe integers.) *)
Definition num_toString (z : Z) : string := pretty z.

(** ** JavaScript [Map] with string keys, in insertion order *)

Abbreviation JsMap V := (list (string * V)).

Section JsMap.
Context {V : Type}.

Fixpoint map_get (k : string) (m : JsMap V) : option V :=
  match m with
  | [] => None
  | (k', v) :: m' => if decide (k' = k) then Some v else map_get k m'
  end.

(** [m.set(k, v)]: an existing key keeps its position. *)
Fixpoint map_set (k : string) (v : V) (m : JsMap V) : JsMap V :=
  match m with
  | [] => [(k, v)]
  | (k', v') :: m' =>
      if decide (k' = k) then (k, v) :: m' else (k', v') :: map_set k v m'
  end.

Definition map_has (k : string) (m : JsMap V) : bool :=
  match map_get k m with Some _ => true | None => false end.

(** [m.delete(k)] returns whether the key was present. *)
Definition map_delete (k : string) (m : JsMap V) : bool * JsMap V :=
  (map_has k m, filter (λ kv, kv.1 ≠ k) m).

Definition map_values (m : JsMap V) : list V := m.*2.

End JsMap.

(** ** [MemStorage] (storage.ts) *)

Record MemStorage := {
  orders : JsMap JsObject;
  customOrders : JsMap JsObject;
  contactSubmissions : JsMap JsObject;
  cartItems : JsMap JsObject;
  donations : JsMap JsObject;
  processedEvents : gset string;
  orderCounter : Z;
}.

(** [new MemStorage()] *)
Definition new_MemStorage : MemStorage :=
  {| orders := []; customOrders := []; contactSubmissions := [];
     cartItems := []; donations := [];
     processedEvents := ∅; orderCounter := 1000 |}.

Definition set_orders (m : JsMap JsObject) (st : MemStorage) : MemStorage :=
  {| orders := m; customOrders := customOrders st;
     contactSubmissions := contactSubmissions st; cartItems := cartItems st;
     donations := donations st; processedEvents := processedEvents st;
     orderCounter := orderCounter st |}.

Definition set_cartItems (m : JsMap JsObject) (st : MemStorage) : MemStorage :=
  {| orders := orders st; customOrders := customOrders st;
     contactSubmissions := contactSubmissions st; cartItems := m;
     donations := donations st; processedEvents := processedEvents st;
     orderCounter := orderCounter st |}.

Definition set_donations (m : JsMap JsObject) (st : MemStorage) : MemStorage :=
  {| orders := orders st; customOrders := customOrders st;
     contactSubmissions := contactSubmissions st; cartItems := cartItems st;
     donations := m; processedEvents := processedEvents st;
     orderCounter := orderCounter st |}.

Definition set_processedEvents (s : gset string) (st : MemStorage) : MemStorage :=
  {| orders := orders st; customOrders := customOrders st;
     contactSubmissions := contactSubmissions st; cartItems := cartItems st;
     donations := donations st; processedEvents := s;
     orderCounter := orderCounter st |}.

Definition set_orderCounter (n : Z) (st : MemStorage) : MemStorage :=
  {| orders := orders st; customOrders := customOrders st;
     contactSubmissions := contactSubmissions st; cartItems := cartItems st;
     donations := donations st; processedEvents := processedEvents st;
     orderCounter := n |}.

(** [n++] on a number holding an integer in [0, 2^53]: above [2^53 - 1]
    the sum is not representable and rounds back to [2^53]. *)
Definition MAX_EXACT : Z := 2 ^ 53.

Definition js_incr (n : Z) : Z := if n <? MAX_EXACT then n + 1 else n.

(** [`ORD-${n}`] *)
Definition ORD (n : Z) : string := "ORD-" +:+ pretty n.

Definition generateOrderNumber (st : MemStorage) : string * MemStorage :=
  let st' := set_orderCounter (js_incr (orderCounter st)) st in
  (ORD (orderCounter st'), st').

(** [new Date(o.createdAt).getTime()]; every stored object carries a
    [Date] there, anything else reads as 0. *)
Definition createdAt_ms (o : JsObject) : Z :=
  match field o "createdAt" with
  | JDate ms => ms
  | _ => 0
  end.

(** [Array.prototype.sort] is stable; with the comparator
    [(a, b) => key(b) - key(a)] an element moves in front of the first
    element whose key is not larger. *)
Section Sorting.
Context (key : JsObject → Z).

Fixpoint insert_desc (x : JsObject) (l : list JsObject) : list JsObject :=
  match l with
  | [] => [x]
  | y :: l' => if key y <=? key x then x :: y :: l' else y :: insert_desc x l'
  end.

Fixpoint sort_desc (l : list JsObject) : list JsObject :=
  match l with
  | [] => []
  | x :: l' => insert_desc x (sort_desc l')
  end.

End Sorting.

(** *** Orders *)

Definition getOrders (st : MemStorage) : list JsObject :=
  sort_desc createdAt_ms (map_values (orders st)).

Definition getOrder (id : string) (st : MemStorage) : option JsObject :=
  map_get id (orders st).

(** [createOrder]: [id] is the value of [randomUUID()], [now] of
    [new Date()]. *)
Definition createOrder (insertOrder : JsObject) (id : string) (now : Z)
    (st : MemStorage) : JsObject * MemStorage :=
  let '(orderNumber, st1) := generateOrderNumber st in
  let order : JsObject :=
    <["createdAt" := JDate now]>
      (<["rating" := JNull]>
         (<["orderNumber" := JStr orderNumber]>
            (<["id" := JStr id]> insertOrder))) in
  (order, set_orders (map_set id order (orders st1)) st1).

Definition updateOrderRating (id : string) (rating : Z) (st : MemStorage)
    : option JsObject * MemStorage :=
  match map_get id (orders st) with
  | None => (None, st)
  | Some order =>
      let updatedOrder : JsObject :=
        <["rating" := JStr (num_toString rating)]> order in
      (Some updatedOrder, set_orders (map_set id updatedOrder (orders st)) st)
  end.

(** *** Cart items *)

Definition getCartItems (st : MemStorage) : list JsObject :=
  sort_desc createdAt_ms (map_values (cartItems st)).

Definition getCartItem (id : string) (st : MemStorage) : option JsObject :=
  map_get id (cartItems st).

Definition addCartItem (insertItem : JsObject) (id : string) (now : Z)
    (st : MemStorage) : JsObject * MemStorage :=
  let item : JsObject :=
    <["createdAt" := JDate now]>
      (<["quantity" := JStr "1"]>
         (<["id" := JStr id]>
            (<["imageUrls" := nullish_or (field insertItem "imageUrls") JNull]>
               insertItem))) in
  (item, set_cartItems (map_set id item (cartItems st)) st).

Definition updateCartItemQuantity (id : string) (quantity : Z)
    (st : MemStorage) : option JsObject * MemStorage :=
  match map_get id (cartItems st) with
  | None => (None, st)
  | Some item =>
      let updatedItem : JsObject :=
        <["quantity" := JStr (num_toString quantity)]> item in
      (Some updatedItem,
       set_cartItems (map_set id updatedItem (cartItems st)) st)
  end.

Definition removeCartItem (id : string) (st : MemStorage)
    : bool * MemStorage :=
  let '(found, m) := map_delete id (cartItems st) in
  (found, set_cartItems m st).

Definition clearCart (st : MemStorage) : MemStorage := set_cartItems [] st.

(** *** Donations *)

Definition createDonation (insertDonation : JsObject) (id : string) (now : Z)
    (st : MemStorage) : JsObject * MemStorage :=
  let donation : JsObject :=
    <["createdAt" := JDate now]>
      (<["id" := JStr id]>
         (<["message" := nullish_or (field insertDonation "message") JNull]>
            insertDonation)) in
  (donation, set_donations (map_set id donation (donations st)) st).

(** *** Webhook event tracking (the idempotency ledger) *)

(** Modelled from the spec: the [webhookEvents] table is declared in
    [@shared/schema] and the handle returned by [getDb()] in [./db],
    neither of which is among the sources.  The table is keyed by the
    event id, its primary key, so it is a set of ids and inserting a
    present id raises the duplicate-key error that [markEventProcessed]
    looks for.  Whether a statement fails for another reason is decided
    by the environment ([fails]). *)
Abbreviation Db := (gset string).

Inductive DbError := DuplicateKey | OtherDbError.

Definition db_select (fails : bool) (eventId : string) (t : Db)
    : DbError + list string :=
  if fails then inl OtherDbError
  else inr (if decide (eventId ∈ t) then [eventId] else []).

Definition db_insert (fails : bool) (eventId : string) (t : Db)
    : DbError + Db :=
  if fails then inl OtherDbError
  else if decide (eventId ∈ t) then inl DuplicateKey
  else inr ({[eventId]} ∪ t).

(** [this.processedEvents.has(eventId)] *)
Definition processedEvents_has (eventId : string) (st : MemStorage) : bool :=
  bool_decide (eventId ∈ processedEvents st).

(** [this.processedEvents.add(eventId)] *)
Definition processedEvents_add (eventId : string) (st : MemStorage)
    : MemStorage :=
  set_processedEvents ({[eventId]} ∪ processedEvents st) st.

(** [db] is the result of [getDb()]: [None] when no database is
    configured. *)
Definition isEventProcessed (db : option Db) (selectFails : bool)
    (eventId : string) (st : MemStorage) : bool :=
  match db with
  | None => processedEvents_has eventId st
  | Some t =>
      match db_select selectFails eventId t with
      | inr result => bool_decide (0 < length result)%nat
      | inl _ => processedEvents_has eventId st
      end
  end.

Definition markEventProcessed (db : option Db) (insertFails : bool)
    (eventId : string) (st : MemStorage) : option Db * MemStorage :=
  match db with
  | None => (None, processedEvents_add eventId st)
  | Some t =>
      match db_insert insertFails eventId t with
      | inr t' => (Some t', processedEvents_add eventId st)
      | inl DuplicateKey => (Some t, st)
      | inl OtherDbError => (Some t, processedEvents_add eventId st)
      end
  end.

(** ** The world outside the store *)

(** Mail bodies are long literal templates; a body is kept as the name of
    its template and the values interpolated into it. *)
Inductive MailBody :=
| Template (name : string) (args : list string)
| NewlinesAsBr (b : MailBody).       (* [text.replace(/\n/g, '<br>')] *)

Record EmailOptions := {
  to : string;
  subject : string;
  text : MailBody;
  html : option MailBody;
}.

(** The message handed to [resend.emails.send]. *)
Record Mail := {
  mail_from : string;
  mail_to : string;
  mail_subject : string;
  mail_text : MailBody;
  mail_html : MailBody;
}.

(** Stripe objects, with the fields the handlers read. *)
Record Wallet := { wallet_type : string }.
Record Card := { wallet : option Wallet }.
Record PaymentMethodDetails := { pm_type : string; card : option Card }.
Record Charge := { payment_method_details : option PaymentMethodDetails }.
Record PaymentIntent := { latest_charge : option Charge }.
Record CustomerDetails := { cd_name : option string; cd_email : option string }.

Record Session := {
  session_id : string;
  session_url : option string;
  payment_intent : option string;
  metadata : option (gmap string string);
  customer_details : option CustomerDetails;
  customer_email : option string;
  amount_total : option Z;
  payment_status : string;
}.

Record StripeEvent := {
  event_id : string;
  event_type : string;
  event_object : Session;      (* [event.data.object as Stripe.Checkout.Session] *)
}.

(** The Stripe client.  A call that throws returns [inl] (with the
    error's message) or [None]. *)
Record StripeSdk := {
  constructEvent : string → string → string → string + StripeEvent;
  paymentIntents_retrieve : string → option PaymentIntent;
  sessions_create : JsObject → option Session;
  sessions_retrieve : string → option Session;
}.

Inductive ProviderCall :=
| PaymentIntentsRetrieve (id : string)
| SessionsCreate (params : JsObject)
| SessionsRetrieve (id : string).

(** What the call [resend.emails.send(message)] comes to.  The client
    reports a message that the mail service did not take in the value the
    promise resolves with, [{data: null, error}]; the promise can also be
    rejected, which [await] turns into an exception. *)
Inductive SendResult :=
| Delivered            (* resolves with [{data, error: null}] *)
| Refused              (* resolves with [{data: null, error}] *)
| Thrown.              (* rejects: [await] throws *)

(** What one request gets from its environment. *)
Record Env := {
  env_uuid : string;              (* [randomUUID()] *)
  env_now : Z;                    (* [new Date()] *)
  env_dbSelectFails : bool;
  env_dbInsertFails : bool;
  env_send : Mail → SendResult;   (* [resend.emails.send] *)
}.

(** The [await] on the send throws.  This is all that [sendEmail] can
    tell about a send: it does not keep the value the promise resolves
    with. *)
Definition env_mailFails (env : Env) (m : Mail) : bool :=
  match env_send env m with
  | Thrown => true
  | Delivered | Refused => false
  end.

(** The zod schemas of [@shared/schema] are not among the sources and are
    a parameter of the routes: [parse] returns the validated data, or
    throws ([None]). *)
Record Schemas := {
  insertCartItemSchema : JsObject → option JsObject;
  insertDonationSchema : JsObject → option JsObject;
}.

(** Effects in the order in which a handler performs them. *)
Inductive Effect :=
| EffLedgerCheck (eventId : string) (found : bool)
| EffLedgerMark (eventId : string)
| EffCreateOrder (order : JsObject)
| EffCreateDonation (donation : JsObject)
| EffMail (m : Mail) (sent : bool)     (* [sent]: the call returned *)
| EffProvider (call : ProviderCall)
| EffLog (line : string).

Record World := {
  storage : MemStorage;
  db : option Db;
  trace : list Effect;
}.

Definition new_World (db : option Db) : World :=
  {| storage := new_MemStorage; db := db; trace := [] |}.

(** ** Handlers: state and exceptions *)

Inductive Exn :=
| ProviderError (msg : string)
| MailError (m : Mail)
| SchemaError.

Inductive Outcome (A : Type) :=
| Ok (a : A)
| Throw (e : Exn).
Arguments Ok {A} a.
Arguments Throw {A} e.

Definition M (A : Type) : Type := World → Outcome A * World.

#[global] Instance M_ret : MRet M := λ A a w, (Ok a, w).

#[global] Instance M_bind : MBind M := λ A B f m w,
  match m w with
  | (Ok a, w') => f a w'
  | (Throw e, w') => (Throw e, w')
  end.

Definition throw {A} (e : Exn) : M A := λ w, (Throw e, w).

(** [try { m } catch (e) { h e }] *)
Definition try_catch {A} (m : M A) (h : Exn → M A) : M A := λ w,
  match m w with
  | (Ok a, w') => (Ok a, w')
  | (Throw e, w') => h e w'
  end.

Definition emit (e : Effect) : M unit := λ w,
  (Ok tt, {| storage := storage w; db := db w; trace := trace w ++ [e] |}).

Definition console (line : string) : M unit := emit (EffLog line).

Definition get_storage : M MemStorage := λ w, (Ok (storage w), w).

Definition put_storage (st : MemStorage) : M unit := λ w,
  (Ok tt, {| storage := st; db := db w; trace := trace w |}).

(** The [storage] singleton as the handlers call it. *)
Definition st_isEventProcessed (env : Env) (eventId : string) : M bool := λ w,
  let b := isEventProcessed (db w) (env_dbSelectFails env) eventId (storage w) in
  (Ok b, {| storage := storage w; db := db w;
            trace := trace w ++ [EffLedgerCheck eventId b] |}).

Definition st_markEventProcessed (env : Env) (eventId : string) : M unit := λ w,
  let '(d, st) :=
    markEventProcessed (db w) (env_dbInsertFails env) eventId (storage w) in
  (Ok tt, {| storage := st; db := d;
             trace := trace w ++ [EffLedgerMark eventId] |}).

Definition st_createOrder (env : Env) (insertOrder : JsObject) : M JsObject :=
  st ← get_storage;
  let '(order, st') := createOrder insertOrder (env_uuid env) (env_now env) st in
  put_storage st';;
  emit (EffCreateOrder order);;
  mret order.

Definition st_createDonation (env : Env) (insertDonation : JsObject)
    : M JsObject :=
  st ← get_storage;
  let '(donation, st') :=
    createDonation insertDonation (env_uuid env) (env_now env) st in
  put_storage st';;
  emit (EffCreateDonation donation);;
  mret donation.

(** ** HTTP responses *)

Inductive Body :=
| BJson (o : JsObject)
| BJsonList (l : list JsObject)
| BText (s : string)
| BRedirect (url : string)
| BEmpty.

Record Response := { status : Z; body : Body }.

Definition json (code : Z) (o : JsObject) : Response :=
  {| status := code; body := BJson o |}.
Definition send (code : Z) (s : string) : Response :=
  {| status := code; body := BText s |}.
Definition redirect (url : string) : Response :=
  {| status := 302; body := BRedirect url |}.

(** A handler whose body sits in [try { ... } catch (error) { ... }];
    the catch block logs and answers, it does not throw. *)
Definition run_handler (m : M Response)
    (on_error : Exn → World → Response * World) (w : World)
    : Response * World :=
  match m w with
  | (Ok r, w') => (r, w')
  | (Throw e, w') => on_error e w'
  end.

Definition log_and_answer (line : string) (r : Response) (w : World)
    : Response * World :=
  (r, {| storage := storage w; db := db w;
         trace := trace w ++ [EffLog line] |}).

(** ** Mail (email.ts) *)

(** The message [sendEmail] hands to the transport; without an HTML body
    one is made from the text. *)
Definition mail_of (options : EmailOptions) : Mail :=
  {| mail_from := "Project V8 <noreply@driftv8.xyz>";
     mail_to := to options;
     mail_subject := subject options;
     mail_text := text options;
     mail_html := default (NewlinesAsBr (text options)) (html options) |}.

(** [await resend.emails.send({...})] is an expression statement: what
    the promise resolves with is dropped, so a [Refused] message is logged
    as sent like a [Delivered] one. *)
Definition sendEmail (env : Env) (options : EmailOptions) : M unit :=
  try_catch
    (if env_mailFails env (mail_of options)
     then emit (EffMail (mail_of options) false);;
          throw (MailError (mail_of options))
     else emit (EffMail (mail_of options) true);;
          console ("Email sent to " +:+ to options +:+ ": " +:+ subject options))
    (λ error, console "Failed to send email:";; throw error).

Section OrderConfirmation.
Context (orderNumber customerName customerEmail amount paymentMethod
           description : string).

Definition confirmation_args : list string :=
  [orderNumber; customerName; customerEmail; amount; paymentMethod;
   description].

(** The confirmation for the customer. *)
Definition customerConfirmation : EmailOptions :=
  {| to := customerEmail;
     subject := "Order Confirmation #" +:+ orderNumber +:+ " - Project V8";
     html := Some (Template "orderEmailHtml" confirmation_args);
     text := Template "orderEmailText" confirmation_args |}.

(** The notification for a business address. *)
Definition businessNotification (address : string) : EmailOptions :=
  {| to := address;
     subject := "New Order #" +:+ orderNumber +:+ " - Project V8";
     html := Some (Template "businessNotificationHtml" confirmation_args);
     text := Template "businessNotificationText" confirmation_args |}.

Definition sendOrderConfirmation (env : Env) : M unit :=
  (* Send confirmation to customer *)
  sendEmail env customerConfirmation;;
  (* Send to primary business email *)
  sendEmail env (businessNotification "allouzimohammed53@gmail.com");;
  (* Also send to secondary business email *)
  sendEmail env (businessNotification "orders@driftv8.xyz").
End OrderConfirmation.

(** ** The Stripe webhook (stripe-webhook.ts) *)

(** [a || b] on strings that may be missing: [undefined], [null] and the
    empty string are falsy. *)
Definition or_str (a : option string) (b : string) : string :=
  match a with
  | Some s => if decide (s = "") then b else s
  | None => b
  end.

Definition truthy_str (a : option string) : option string :=
  match a with
  | Some s => if decide (s = "") then None else Some s
  | None => None
  end.

(** [c.toUpperCase()] on an ASCII character; other characters are left
    as they are. *)
Definition ascii_toUpperCase (c : ascii) : ascii :=
  let n := nat_of_ascii c in
  if ((97 <=? n) && (n <=? 122))%nat then ascii_of_nat (n - 32) else c.

(** [s.charAt(0).toUpperCase() + s.slice(1)], for a string that does not
    start with a character outside ASCII. *)
Definition capitalize (s : string) : string :=
  match s with
  | EmptyString => EmptyString
  | String c s' => String (ascii_toUpperCase c) s'
  end.

(** [pmDetails.card?.wallet?.type] *)
Definition card_wallet_type (pmDetails : PaymentMethodDetails)
    : option string :=
  w ← (c ← card pmDetails; wallet c); Some (wallet_type w).

(** The label chosen from [charge?.payment_method_details]
    (lines 53 and 63-86 of the handler). *)
Definition paymentMethodLabel (pmDetails : option PaymentMethodDetails)
    : string :=
  match pmDetails with
  | None => "Unknown"
  | Some pm =>
      if decide (pm_type pm = "card") then
        if decide (card_wallet_type pm = Some "apple_pay") then "Apple Pay"
        else if decide (card_wallet_type pm = Some "google_pay") then "Google Pay"
        else "Credit/Debit Card"
      else if decide (pm_type pm = "link") then "Link"
      else if decide (pm_type pm = "klarna") then "Klarna"
      else if decide (pm_type pm = "cashapp") then "Cash App"
      else if decide (pm_type pm = "us_bank_account") then "ACH Bank Transfer"
      else if decide (pm_type pm = "crypto") then "Cryptocurrency"
      else capitalize (pm_type pm)
  end.

(** [(cents / 100).toString()] for an amount in cents: the decimal
    without trailing zeros.  This is what JavaScript prints for amounts of
    up to fifteen digits: the quotient, a decimal of at most fifteen
    digits, is the shortest decimal that denotes the number nearest to
    it. *)
Definition two_digits (r : Z) : string :=
  if r <? 10 then "0" +:+ pretty r else pretty r.

Definition div100_toString (cents : Z) : string :=
  let a := Z.abs cents in
  let whole := a / 100 in
  let r := a mod 100 in
  (if cents <? 0 then "-" else "") +:+
  (if r =? 0 then pretty whole
   else if r mod 10 =? 0 then pretty whole +:+ "." +:+ pretty (r / 10)
   else pretty whole +:+ "." +:+ two_digits r).

(** [(cents / 100).toFixed(2)], for amounts of up to fifteen digits as
    well: the number nearest to the quotient is less than a thousandth
    away from it. *)
Definition div100_toFixed2 (cents : Z) : string :=
  let a := Z.abs cents in
  (if cents <? 0 then "-" else "") +:+
  pretty (a / 100) +:+ "." +:+ two_digits (a mod 100).

Record WebhookRequest := {
  stripe_signature : option string;     (* [req.headers['stripe-signature']] *)
  rawBody : string;                     (* [req.rawBody || req.body] *)
}.

(** A field that holds a string, read as a string: the fields of the
    order data that the webhook builds, and the order number that the
    store issues. *)
Definition string_field (o : JsObject) (f : string) : string :=
  match o !! f with
  | Some (JStr s) => s
  | _ => ""
  end.

(** Lines 53-87: fetch the payment method actually used. *)
Definition fetchPaymentMethodType (sdk : StripeSdk) (session : Session)
    : M string :=
  match truthy_str (payment_intent session) with
  | None => mret "Unknown"
  | Some pi =>
      emit (EffProvider (PaymentIntentsRetrieve pi));;
      match paymentIntents_retrieve sdk pi with
      | None => throw (ProviderError "paymentIntents.retrieve")
      | Some paymentIntent =>
          let pmDetails :=
            charge ← latest_charge paymentIntent;
            payment_method_details charge in
          mret (paymentMethodLabel pmDetails)
      end
  end.

(** Lines 90-96. *)
Definition orderData_of (session : Session) (paymentMethodType : string)
    : JsObject :=
  let meta f := m ← metadata session; m !! f in
  {[ "customerName" :=
       JStr (or_str (meta "customerName")
               (or_str (cd ← customer_details session; cd_name cd) "Unknown"));
     "customerEmail" :=
       JStr (or_str (cd ← customer_details session; cd_email cd)
               (or_str (customer_email session) ""));
     "amount" := JStr (div100_toString (default 0 (amount_total session)));
     "paymentMethod" := JStr paymentMethodType;
     "description" := JStr (or_str (meta "description") "Project V8 Order") ]}.

(** Lines 49-111: the [checkout.session.completed] branch. *)
Definition materializeOrder (sdk : StripeSdk) (session : Session) (env : Env)
    : M unit :=
  paymentMethodType ← fetchPaymentMethodType sdk session;
  let orderData := orderData_of session paymentMethodType in
  (* Create order in database *)
  order ← st_createOrder env orderData;
  (* Send confirmation email *)
  sendOrderConfirmation
    (string_field order "orderNumber")
    (string_field orderData "customerName")
    (string_field orderData "customerEmail")
    (string_field orderData "amount")
    (string_field orderData "paymentMethod")
    (string_field orderData "description") env;;
  console ("Order " +:+ string_field order "orderNumber" +:+
           " created from Stripe payment " +:+ session_id session +:+
           " using " +:+ paymentMethodType).

(** Lines 39-113: the handler once the duplicate check has answered. *)
Definition afterDuplicateCheck (sdk : StripeSdk) (event : StripeEvent)
    (env : Env) (isProcessed : bool) : M Response :=
  if isProcessed then
    console ("Event " +:+ event_id event +:+ " already processed, skipping");;
    mret (json 200 {[ "received" := JBool true;
                      "message" := JStr "Event already processed" ]})
  else
    (* Mark event as processed IMMEDIATELY to prevent race conditions *)
    st_markEventProcessed env (event_id event);;
    (* Handle the checkout.session.completed event *)
    (if decide (event_type event = "checkout.session.completed")
     then materializeOrder sdk (event_object event) env
     else mret ());;
    mret (json 200 {[ "received" := JBool true ]}).

(** Lines 37-113: what the handler does with a verified event. *)
Definition processEvent (sdk : StripeSdk) (event : StripeEvent) (env : Env)
    : M Response :=
  (* Check if event has already been processed (idempotency) *)
  isProcessed ← st_isEventProcessed env (event_id event);
  afterDuplicateCheck sdk event env isProcessed.

(** [stripe] is the module's client ([null] without [STRIPE_SECRET_KEY]),
    [webhookSecret] is [process.env.STRIPE_WEBHOOK_SECRET]. *)
Definition handleStripeWebhook (stripe : option StripeSdk)
    (webhookSecret : option string) (req : WebhookRequest) (env : Env)
    : World → Response * World :=
  run_handler
    (match stripe with
     | None => mret (json 503 {[ "error" := JStr "Stripe is not configured" ]})
     | Some sdk =>
         match truthy_str (stripe_signature req), truthy_str webhookSecret with
         | Some sig, Some secret =>
             match constructEvent sdk (rawBody req) sig secret with
             | inl message =>
                 console ("Webhook signature verification failed: " +:+ message);;
                 mret (send 400 ("Webhook Error: " +:+ message))
             | inr event => processEvent sdk event env
             end
         | _, _ =>
             console "Missing signature or webhook secret";;
             mret (send 400 "Webhook error: Missing signature")
         end
     end)
    (λ error,
       log_and_answer "Webhook handler error:"
         (json 500 {[ "error" := JStr "Webhook handler failed" ]})).

(** ** Checkout initiation (stripe.ts) *)

(** *** [parseFloat]

    [parseFloat] skips leading white space and reads the longest prefix
    that is a decimal literal: an optional sign, then [Infinity] or
    digits with an optional fraction and an optional exponent.  The result
    is kept as the decimal read, [(-1)^neg * mantissa * 10^exp10], together
    with the text that was not read. *)

Inductive ParsedNumber :=
| PNaN
| PInfinity (neg : bool)
| PDecimal (neg : bool) (mantissa : Z) (exp10 : Z).

(** The white space of the ASCII range.  ([parseFloat] skips the white
    space and the line terminators of Unicode; those outside ASCII are not
    modelled.) *)
Definition is_ws (c : ascii) : bool :=
  let n := nat_of_ascii c in
  ((n =? 32) || ((9 <=? n) && (n <=? 13)))%nat.

Fixpoint skip_ws (s : string) : string :=
  match s with
  | String c s' => if is_ws c then skip_ws s' else s
  | EmptyString => s
  end.

Definition digit_val (c : ascii) : option Z :=
  let n := nat_of_ascii c in
  if ((48 <=? n) && (n <=? 57))%nat then Some (Z.of_nat n - 48) else None.

(** Reads digits in front of [s]: their value on top of [acc], how many
    there were, and the rest. *)
Fixpoint read_digits (s : string) (acc : Z) (count : nat)
    : Z * nat * string :=
  match s with
  | String c s' =>
      match digit_val c with
      | Some d => read_digits s' (10 * acc + d) (S count)
      | None => (acc, count, s)
      end
  | EmptyString => (acc, count, s)
  end.

Fixpoint strip_prefix (p s : string) : option string :=
  match p, s with
  | EmptyString, _ => Some s
  | String a p', String b s' =>
      if decide (a = b) then strip_prefix p' s' else None
  | String _ _, EmptyString => None
  end.

(** An exponent part is read only when it is complete. *)
Definition read_exponent (s : string) : Z * string :=
  match s with
  | String c s' =>
      if decide (c = "e"%char ∨ c = "E"%char) then
        let '(neg, s'') :=
          match s' with
          | String "+" t => (false, t)
          | String "-" t => (true, t)
          | _ => (false, s')
          end in
        let '(e, n, rest) := read_digits s'' 0 0 in
        if (n =? 0)%nat then (0, s)
        else (if neg then - e else e, rest)
      else (0, s)
  | EmptyString => (0, s)
  end.

Definition parse_unsigned (neg : bool) (s : string) : ParsedNumber * string :=
  match strip_prefix "Infinity" s with
  | Some rest => (PInfinity neg, rest)
  | None =>
      let '(m1, n1, r1) := read_digits s 0 0 in
      let '(m, n2, r2) :=
        match r1 with
        | String "." r =>
            let '(m2, n2, r2) := read_digits r m1 0 in
            if ((n1 =? 0) && (n2 =? 0))%nat then (m1, 0%nat, r1)
            else (m2, n2, r2)
        | _ => (m1, 0%nat, r1)
        end in
      if ((n1 =? 0) && (n2 =? 0))%nat then (PNaN, s)
      else
        let '(e, r3) := read_exponent r2 in
        (PDecimal neg m (e - Z.of_nat n2), r3)
  end.

Definition parse_decimal (s : string) : ParsedNumber * string :=
  match skip_ws s with
  | String "+" t => parse_unsigned false t
  | String "-" t => parse_unsigned true t
  | t => parse_unsigned false t
  end.

(** [parseFloat(v)] converts [v] to a string first.  A number is printed
    with all its digits, see [num_toString]; dates do not occur in request
    bodies. *)
Definition js_ToString (v : JsValue) : string :=
  match v with
  | JUndefined => "undefined"
  | JNull => "null"
  | JBool b => if b then "true" else "false"
  | JNum z => pretty z
  | JStr s => s
  | JDate _ => "Date"
  | JStrings l => String.concat "," l
  end.

Definition parseFloat (v : JsValue) : ParsedNumber :=
  (parse_decimal (js_ToString v)).1.

Definition isNaN (p : ParsedNumber) : bool :=
  match p with PNaN => true | _ => false end.

(** [p <= 0] on the number [p] stands for.  A positive decimal is [0] as a
    number when it is at most [2^-1075], half the smallest positive
    number. *)
Definition le_zero (p : ParsedNumber) : bool :=
  match p with
  | PNaN => false
  | PInfinity neg => neg
  | PDecimal neg m e =>
      neg || (m =? 0) || ((e <? 0) && (m * 2 ^ 1075 <=? 10 ^ (- e)))
  end.

(** [a || b] *)
Definition js_or (a b : JsValue) : JsValue := if falsy a then b else a.

(** The arguments of [stripe.checkout.sessions.create].  The amount in
    cents, [Math.round(parseFloat(amount) * 100)], is a floating-point
    product and is not computed: the call is recorded with the [amount] it
    is computed from. *)
Definition checkout_params (baseUrl : option string) (body : JsObject)
    : JsObject :=
  let currency :=
    match field body "currency" with JUndefined => JStr "usd" | c => c end in
  let base := or_str baseUrl "http://localhost:5000" in
  {[ "payment_method_types" := JStrings ["card"; "link"; "klarna"];
     "currency" := currency;
     "product_name" := js_or (field body "description") (JStr "Project V8 Order");
     "amount" := field body "amount";
     "quantity" := JNum 1;
     "mode" := JStr "payment";
     "success_url" :=
       JStr (base +:+ "/orders?session_id={CHECKOUT_SESSION_ID}&payment_success=true");
     "cancel_url" := JStr (base +:+ "/custom-order?payment_cancelled=true");
     "customer_email" := field body "customerEmail";
     "metadata.customerName" := js_or (field body "customerName") (JStr "");
     "metadata.description" := js_or (field body "description") (JStr "") ]}.

Definition opt_str (a : option string) : JsValue :=
  match a with Some s => JStr s | None => JNull end.

(** The test of line 21. *)
Definition amount_rejected (amount : JsValue) : bool :=
  falsy amount || isNaN (parseFloat amount) || le_zero (parseFloat amount).

Definition createStripeCheckoutSession (stripe : option StripeSdk)
    (baseUrl : option string) (body : JsObject) : World → Response * World :=
  run_handler
    (match stripe with
     | None =>
         mret (json 503 {[ "error" :=
           JStr "Stripe is not configured. Please set up Stripe credentials." ]})
     | Some sdk =>
         let amount := field body "amount" in
         if amount_rejected amount then
           mret (json 400 {[ "error" :=
             JStr "Invalid amount. Amount must be a positive number." ]})
         else
           let params := checkout_params baseUrl body in
           emit (EffProvider (SessionsCreate params));;
           match sessions_create sdk params with
           | None => throw (ProviderError "checkout.sessions.create")
           | Some session =>
               mret (json 200 {[ "sessionId" := JStr (session_id session);
                                 "url" := opt_str (session_url session) ]})
           end
     end)
    (λ error,
       log_and_answer "Failed to create checkout session:"
         (json 500 {[ "error" := JStr "Failed to create checkout session." ]})).

(** ** Routes (routes.ts) *)

(** [PATCH /api/orders/:id/rating] *)
Definition patchOrderRating (id : string) (body : JsObject)
    : World → Response * World :=
  run_handler
    (match field body "rating" with
     | JNum rating =>
         if (rating <? 1) || (5 <? rating) then
           mret (json 400 {[ "error" := JStr "Rating must be between 1 and 5" ]})
         else
           st ← get_storage;
           let '(order, st') := updateOrderRating id rating st in
           put_storage st';;
           match order with
           | None => mret (json 404 {[ "error" := JStr "Order not found" ]})
           | Some o => mret (json 200 o)
           end
     | _ => (* typeof rating !== "number" *)
         mret (json 400 {[ "error" := JStr "Rating must be between 1 and 5" ]})
     end)
    (λ error,
       log_and_answer "Error updating order rating:"
         (json 500 {[ "error" := JStr "Failed to update rating" ]})).

(** [GET /api/cart] *)
Definition getCart : World → Response * World :=
  run_handler
    (st ← get_storage;
     mret {| status := 200; body := BJsonList (getCartItems st) |})
    (λ error,
       log_and_answer "Error fetching cart items:"
         (json 500 {[ "error" := JStr "Failed to fetch cart items" ]})).

(** [POST /api/cart] *)
Definition postCart (schemas : Schemas) (body : JsObject) (env : Env)
    : World → Response * World :=
  run_handler
    (match insertCartItemSchema schemas body with
     | None => throw SchemaError
     | Some validatedData =>
         st ← get_storage;
         let '(item, st') :=
           addCartItem validatedData (env_uuid env) (env_now env) st in
         put_storage st';;
         mret (json 201 item)
     end)
    (λ error,
       log_and_answer "Error adding cart item:"
         (json 400 {[ "error" := JStr "Invalid cart item data" ]})).

(** [PATCH /api/cart/:id] *)
Definition patchCart (id : string) (body : JsObject)
    : World → Response * World :=
  run_handler
    (match field body "quantity" with
     | JNum quantity =>
         if quantity <? 1 then
           mret (json 400 {[ "error" := JStr "Invalid quantity" ]})
         else
           st ← get_storage;
           let '(item, st') := updateCartItemQuantity id quantity st in
           put_storage st';;
           match item with
           | None => mret (json 404 {[ "error" := JStr "Cart item not found" ]})
           | Some i => mret (json 200 i)
           end
     | _ => mret (json 400 {[ "error" := JStr "Invalid quantity" ]})
     end)
    (λ error,
       log_and_answer "Error updating cart item:"
         (json 500 {[ "error" := JStr "Failed to update cart item" ]})).

(** [DELETE /api/cart/:id] *)
Definition deleteCartItem (id : string) : World → Response * World :=
  run_handler
    (st ← get_storage;
     let '(deleted, st') := removeCartItem id st in
     put_storage st';;
     if deleted : bool then mret {| status := 204; body := BEmpty |}
     else mret (json 404 {[ "error" := JStr "Cart item not found" ]}))
    (λ error,
       log_and_answer "Error removing cart item:"
         (json 500 {[ "error" := JStr "Failed to remove cart item" ]})).

(** [GET /stripe/donation-success].  [session_id] is the query parameter
    when it is a string; [stripe] is the client the route builds from
    [STRIPE_SECRET_KEY] ([None]: building it throws). *)
Definition donationSuccess (stripe : option StripeSdk) (schemas : Schemas)
    (session_id : option string) (env : Env) : World → Response * World :=
  run_handler
    (match truthy_str session_id with
     | None => mret (redirect "/?donation_error=missing_session")
     | Some sid =>
         (* Check idempotency *)
         alreadyProcessed ← st_isEventProcessed env ("donation_" +:+ sid);
         if alreadyProcessed : bool then
           mret (redirect "/?donation_success=true")
         else
           match stripe with
           | None => throw (ProviderError "new Stripe")
           | Some sdk =>
               emit (EffProvider (SessionsRetrieve sid));;
               match sessions_retrieve sdk sid with
               | None => throw (ProviderError "checkout.sessions.retrieve")
               | Some session =>
                   let meta f := m ← metadata session; m !! f in
                   if bool_decide (payment_status session ≠ "paid")
                      || bool_decide (meta "type" ≠ Some "donation")
                      || bool_decide (truthy_str (meta "donorName") = None)
                      || bool_decide (truthy_str (meta "donorEmail") = None)
                   then mret (redirect "/?donation_error=payment_failed")
                   else
                     let amountPaid :=
                       match amount_total session with
                       | Some c => if c =? 0 then "0" else div100_toFixed2 c
                       | None => "0"
                       end in
                     let donationData : JsObject :=
                       {[ "donorName" := JStr (or_str (meta "donorName") "");
                          "donorEmail" := JStr (or_str (meta "donorEmail") "");
                          "amount" := JStr amountPaid;
                          "message" := JStr (or_str (meta "message") "") ]} in
                     try_catch
                       (match insertDonationSchema schemas donationData with
                        | None => throw SchemaError
                        | Some validatedData =>
                            (* Create donation record *)
                            st_createDonation env validatedData;;
                            (* Mark as processed to prevent duplicates *)
                            st_markEventProcessed env ("donation_" +:+ sid);;
                            mret (redirect "/?donation_success=true")
                        end)
                       (λ error,
                          console "Error saving donation:";;
                          mret (redirect "/?donation_error=save_failed"))
               end
           end
     end)
    (λ error,
       log_and_answer "Error processing donation success:"
         (redirect "/?donation_error=processing_failed")).

(** ** The rest of the store and of the mail module *)

Definition set_customOrders (m : JsMap JsObject) (st : MemStorage) : MemStorage :=
  {| orders := orders st; customOrders := m;
     contactSubmissions := contactSubmissions st; cartItems := cartItems st;
     donations := donations st; processedEvents := processedEvents st;
     orderCounter := orderCounter st |}.

Definition set_contactSubmissions (m : JsMap JsObject) (st : MemStorage)
    : MemStorage :=
  {| orders := orders st; customOrders := customOrders st;
     contactSubmissions := m; cartItems := cartItems st;
     donations := donations st; processedEvents := processedEvents st;
     orderCounter := orderCounter st |}.

(** *** Custom orders *)

Definition getCustomOrders (st : MemStorage) : list JsObject :=
  sort_desc createdAt_ms (map_values (customOrders st)).

Definition getCustomOrder (id : string) (st : MemStorage) : option JsObject :=
  map_get id (customOrders st).

Definition createCustomOrder (insertCustomOrder : JsObject) (id : string)
    (now : Z) (st : MemStorage) : JsObject * MemStorage :=
  let customOrder : JsObject :=
    <["createdAt" := JDate now]>
      (<["status" := JStr "pending"]>
         (<["id" := JStr id]>
            (<["imageUrls" :=
                 nullish_or (field insertCustomOrder "imageUrls") JNull]>
               (<["paymentMethod" :=
                    nullish_or (field insertCustomOrder "paymentMethod") JNull]>
                  insertCustomOrder)))) in
  (customOrder,
   set_customOrders (map_set id customOrder (customOrders st)) st).

(** *** Contact submissions *)

Definition getContactSubmissions (st : MemStorage) : list JsObject :=
  sort_desc createdAt_ms (map_values (contactSubmissions st)).

Definition createContactSubmission (insertSubmission : JsObject) (id : string)
    (now : Z) (st : MemStorage) : JsObject * MemStorage :=
  let submission : JsObject :=
    <["createdAt" := JDate now]> (<["id" := JStr id]> insertSubmission) in
  (submission,
   set_contactSubmissions (map_set id submission (contactSubmissions st)) st).

(** *** Contact and custom-order mails (email.ts) *)

Definition sendContactNotification (name email subject message : string)
    (env : Env) : M unit :=
  sendEmail env
    {| to := "contact@driftv8.xyz";
       subject := "New Contact Form: " +:+ subject;
       text := Template "contactNotificationText" [name; email; subject; message];
       html := None |};;
  (* Send confirmation to customer *)
  sendEmail env
    {| to := email;
       subject := "We received your message - Project V8";
       text := Template "contactConfirmationText" [name; message];
       html := None |}.

Section CustomOrderNotification.
Context (customerName customerEmail category description estimatedPrice
           : string).

Definition customOrder_args : list string :=
  [customerName; customerEmail; category; description; estimatedPrice].

Definition customOrderBusinessMail (address : string) : EmailOptions :=
  {| to := address;
     subject := "New Custom Order: " +:+ category +:+ " - Project V8";
     html := Some (Template "businessNotificationHtml" customOrder_args);
     text := Template "businessNotificationText" customOrder_args |}.

Definition customOrderCustomerMail : EmailOptions :=
  {| to := customerEmail;
     subject := "Custom Order Received - Project V8";
     text := Template "customOrderConfirmationText"
               [customerName; category; estimatedPrice; description];
     html := None |}.

Definition sendCustomOrderNotification (env : Env) : M unit :=
  (* Send to primary business email *)
  sendEmail env (customOrderBusinessMail "allouzimohammed53@gmail.com");;
  (* Also send to secondary business email *)
  sendEmail env (customOrderBusinessMail "custom@driftv8.xyz");;
  (* Send confirmation to customer *)
  sendEmail env customOrderCustomerMail.

End CustomOrderNotification.

(** ** The other routes (routes.ts) *)

(** The schemas of the order, custom-order and contact routes, parameters
    like [Schemas].  The routes hand fields of the validated data to the
    mail functions, which interpolate them into strings: a field is read
    by its string form.  By their types these fields are strings, and the
    statements about the routes are made for such data. *)
Record FormSchemas := {
  insertOrderSchema : JsObject → option JsObject;
  insertCustomOrderSchema : JsObject → option JsObject;
  insertContactSubmissionSchema : JsObject → option JsObject;
}.

(** [GET /api/orders] *)
Definition getOrdersRoute : World → Response * World :=
  run_handler
    (st ← get_storage;
     mret {| status := 200; body := BJsonList (getOrders st) |})
    (λ error,
       log_and_answer "Error fetching orders:"
         (json 500 {[ "error" := JStr "Failed to fetch orders" ]})).

(** [GET /api/orders/:id] *)
Definition getOrderRoute (id : string) : World → Response * World :=
  run_handler
    (st ← get_storage;
     match getOrder id st with
     | None => mret (json 404 {[ "error" := JStr "Order not found" ]})
     | Some order => mret (json 200 order)
     end)
    (λ error,
       log_and_answer "Error fetching order:"
         (json 500 {[ "error" := JStr "Failed to fetch order" ]})).

(** [POST /api/orders] *)
Definition postOrder (schemas : FormSchemas) (body : JsObject) (env : Env)
    : World → Response * World :=
  run_handler
    (match insertOrderSchema schemas body with
     | None => throw SchemaError
     | Some validatedData =>
         order ← st_createOrder env validatedData;
         sendOrderConfirmation
           (string_field order "orderNumber")
           (js_ToString (field validatedData "customerName"))
           (js_ToString (field validatedData "customerEmail"))
           (js_ToString (field validatedData "amount"))
           (js_ToString (field validatedData "paymentMethod"))
           (js_ToString (field validatedData "description")) env;;
         mret (json 201 order)
     end)
    (λ error,
       log_and_answer "Error creating order:"
         (json 400 {[ "error" := JStr "Invalid order data" ]})).

(** [GET /api/custom-orders/:id] *)
Definition getCustomOrderRoute (id : string) : World → Response * World :=
  run_handler
    (st ← get_storage;
     match getCustomOrder id st with
     | None => mret (json 404 {[ "error" := JStr "Custom order not found" ]})
     | Some customOrder => mret (json 200 customOrder)
     end)
    (λ error,
       log_and_answer "Error fetching custom order:"
         (json 500 {[ "error" := JStr "Failed to fetch custom order" ]})).

(** [POST /api/custom-orders] *)
Definition postCustomOrder (schemas : FormSchemas) (body : JsObject)
    (env : Env) : World → Response * World :=
  run_handler
    (match insertCustomOrderSchema schemas body with
     | None => throw SchemaError
     | Some validatedData =>
         st ← get_storage;
         let '(customOrder, st') :=
           createCustomOrder validatedData (env_uuid env) (env_now env) st in
         put_storage st';;
         (* Send email notifications *)
         sendCustomOrderNotification
           (js_ToString (field validatedData "customerName"))
           (js_ToString (field validatedData "customerEmail"))
           (js_ToString (field validatedData "category"))
           (js_ToString (field validatedData "description"))
           (js_ToString (field validatedData "estimatedPrice")) env;;
         mret (json 201 customOrder)
     end)
    (λ error,
       log_and_answer "Error creating custom order:"
         (json 400 {[ "error" := JStr "Invalid custom order data" ]})).

(** [POST /api/contact] *)
Definition postContact (schemas : FormSchemas) (body : JsObject) (env : Env)
    : World → Response * World :=
  run_handler
    (match insertContactSubmissionSchema schemas body with
     | None => throw SchemaError
     | Some validatedData =>
         st ← get_storage;
         let '(submission, st') :=
           createContactSubmission validatedData (env_uuid env) (env_now env)
             st in
         put_storage st';;
         (* Send email notification *)
         sendContactNotification
           (js_ToString (field validatedData "name"))
           (js_ToString (field validatedData "email"))
           (js_ToString (field validatedData "subject"))
           (js_ToString (field validatedData "message")) env;;
         mret (json 201 submission)
     end)
    (λ error,
       log_and_answer "Error creating contact submission:"
         (json 400 {[ "error" := JStr "Invalid contact data" ]})).

(** [DELETE /api/cart] *)
Definition deleteCart : World → Response * World :=
  run_handler
    (st ← get_storage;
     put_storage (clearCart st);;
     mret {| status := 204; body := BEmpty |})
    (λ error,
       log_and_answer "Error clearing cart:"
         (json 500 {[ "error" := JStr "Failed to clear cart" ]})).

(** ** Donation checkout and manual payments (routes.ts) *)

#[global] Instance JsValue_eq_dec : EqDecision JsValue.
Proof. solve_decision. Defined.

(** [p < 1] on the number [p] stands for, [parseFloat] rounding to the
    nearest number: a decimal below 1 is a number below 1 unless it
    reaches [1 - 2^-54], half-way to the number before 1. *)
Definition lt_one (p : ParsedNumber) : bool :=
  match p with
  | PNaN => false
  | PInfinity neg => neg
  | PDecimal neg m e =>
      neg || (m =? 0) || ((e <? 0) && (m * 2 ^ 54 <? (2 ^ 54 - 1) * 10 ^ (- e)))
  end.

(** The test of line 650. *)
Definition donation_amount_rejected (amount : JsValue) : bool :=
  falsy amount || isNaN (parseFloat amount) || lt_one (parseFloat amount).

(** The arguments of [stripe.checkout.sessions.create] for a donation; as
    for the checkout, the amount in cents is not computed. *)
Definition donation_checkout_params (baseUrl : option string) (body : JsObject)
    : JsObject :=
  let base := or_str baseUrl "http://localhost:5000" in
  <["payment_method_types" := JStrings ["card"; "link"; "klarna"]]> $
  <["currency" := JStr "usd"]> $
  <["product_name" :=
      JStr ("Donation from " +:+ js_ToString (field body "donorName"))]>
  {[
     "amount" := field body "amount";
     "quantity" := JNum 1;
     "mode" := JStr "payment";
     "success_url" :=
       JStr (base +:+ "/stripe/donation-success?session_id={CHECKOUT_SESSION_ID}");
     "cancel_url" := JStr (base +:+ "/?donation_cancelled=true");
     "customer_email" := field body "donorEmail";
     "metadata.type" := JStr "donation";
     "metadata.donorName" := field body "donorName";
     "metadata.donorEmail" := field body "donorEmail";
     "metadata.amount" := JStr (js_ToString (field body "amount"));
     "metadata.message" := js_or (field body "message") (JStr "") ]}.

(** [POST /stripe/create-donation-checkout].  [stripe] is the client the
    route builds ([None]: building it throws). *)
Definition createDonationCheckout (stripe : option StripeSdk)
    (baseUrl : option string) (body : JsObject) : World → Response * World :=
  run_handler
    (if donation_amount_rejected (field body "amount") then
       mret (json 400 {[ "error" :=
         JStr "Invalid amount. Minimum donation is $1." ]})
     else
       match stripe with
       | None => throw (ProviderError "new Stripe")
       | Some sdk =>
           let params := donation_checkout_params baseUrl body in
           emit (EffProvider (SessionsCreate params));;
           match sessions_create sdk params with
           | None => throw (ProviderError "checkout.sessions.create")
           | Some session =>
               mret (json 200 {[ "sessionId" := JStr (session_id session);
                                 "url" := opt_str (session_url session) ]})
           end
       end)
    (λ error,
       log_and_answer "Error creating donation checkout:"
         (json 500 {[ "error" := JStr "Failed to create donation checkout" ]})).

(** [amount.toString()]: a [TypeError] on [undefined] and [null]. *)
Definition amount_toString (amount : JsValue) : option string :=
  match amount with
  | JUndefined | JNull => None
  | v => Some (js_ToString v)
  end.

(** The answer of [POST /api/payment/manual]: its success body nests the
    order and the payment instructions. *)
Inductive ManualPaymentAnswer :=
| ManualPaid (order paymentInstructions : JsObject)
| ManualAnswer (r : Response).

Definition manual_label (paymentMethod : JsValue) : string :=
  if decide (paymentMethod = JStr "cashapp") then "Cash App" else "Cryptocurrency".

Definition manual_instructions (body : JsObject) : JsObject :=
  let note := JStr ("Order for " +:+ js_ToString (field body "description")) in
  if decide (field body "paymentMethod" = JStr "cashapp") then
    {[ "method" := JStr "Cash App"; "cashtag" := JStr "$DriftV8";
       "amount" := field body "amount"; "note" := note ]}
  else if decide (field body "paymentMethod" = JStr "crypto") then
    {[ "method" := JStr "Cryptocurrency";
       "wallet" := JStr "bc1qxy2kgdygjrsqtzq2n0yrf2493p83kkfjhx0wlh";
       "network" := JStr "Bitcoin (BTC)";
       "amount" := field body "amount"; "note" := note ]}
  else ∅.

(** The order data of a manual payment (lines 466-472); the name, address
    and description are stored as the body has them. *)
Definition manual_orderData (body : JsObject) (amount : string) : JsObject :=
  {[ "customerName" := field body "customerName";
     "customerEmail" := field body "customerEmail";
     "amount" := JStr amount;
     "paymentMethod" := JStr (manual_label (field body "paymentMethod"));
     "description" := field body "description" ]}.

(** [POST /api/payment/manual].  The mail functions interpolate their
    arguments into strings; a recipient that is not a string is recorded
    by its string form. *)
Definition postManualPayment (body : JsObject) (env : Env) (w : World)
    : ManualPaymentAnswer * World :=
  let failed w' :=
    (ManualAnswer (json 500 {[ "error" := JStr "Failed to process payment" ]}),
     {| storage := storage w'; db := db w';
        trace := trace w' ++ [EffLog "Error processing manual payment:"] |}) in
  let paymentMethod := field body "paymentMethod" in
  if negb (bool_decide (paymentMethod = JStr "cashapp") ||
           bool_decide (paymentMethod = JStr "crypto")) then
    (ManualAnswer (json 400 {[ "error" := JStr "Invalid payment method" ]}), w)
  else
    let paymentInstructions := manual_instructions body in
    match amount_toString (field body "amount") with
    | None => failed w
    | Some amount =>
        let orderData := manual_orderData body amount in
        match
          (order ← st_createOrder env orderData;
           sendOrderConfirmation
             (string_field order "orderNumber")
             (js_ToString (field body "customerName"))
             (js_ToString (field body "customerEmail"))
             amount
             (string_field orderData "paymentMethod")
             (js_ToString (field body "description")) env;;
           mret order) w
        with
        | (Ok order, w') => (ManualPaid order paymentInstructions, w')
        | (Throw _, w') => failed w'
        end
    end.

(** * Vocabulary of the statements

    Invariants of the store, the handlers read as functions of the world,
    measures on traces, and sample inputs. *)

(** The orders of a store built by the operations above: each sits under
    its own id and carries a number issued by the counter. *)
Definition orders_inv (st : MemStorage) : Prop :=
  ∀ id o, (id, o) ∈ orders st →
    o !! "id" = Some (JStr id) ∧
    ∃ k, o !! "orderNumber" = Some (JStr (ORD k)) ∧ 1000 < k ≤ orderCounter st.

(** Every cart item sits under its own id. *)
Definition cart_inv (st : MemStorage) : Prop :=
  ∀ id item, (id, item) ∈ cartItems st → item !! "id" = Some (JStr id).

(** Every cart item has quantity ["1"]. *)
Definition all_quantity_one (st : MemStorage) : Prop :=
  ∀ id item, (id, item) ∈ cartItems st → item !! "quantity" = Some (JStr "1").

(** *** Where the string functions of the model are the code's

    [num_toString], [js_ToString] and the two divisions by 100 print every
    digit of a number, which is what JavaScript prints for the integral
    numbers it holds exactly; [parseFloat] and [capitalize] know the ASCII
    characters.  The statements that depend on these functions are made
    for the following inputs. *)

(** An integral number that JavaScript holds exactly, like its
    neighbours: at most [2^53] in magnitude.  ([toString] prints an
    exponent from [10^21] on.) *)
Definition safe_integer (z : Z) : Prop := - MAX_EXACT ≤ z ≤ MAX_EXACT.

#[global] Instance safe_integer_dec z : Decision (safe_integer z).
Proof. unfold safe_integer. apply _. Defined.

(** An amount in cents of fewer than sixteen digits: dividing it by 100
    gives the number nearest to the exact quotient, and both [toString]
    and [toFixed(2)] print that quotient. *)
Definition cents_in_range (c : Z) : Prop := - 10 ^ 15 < c < 10 ^ 15.

Fixpoint ascii_string (s : string) : bool :=
  match s with
  | EmptyString => true
  | String c s' => (nat_of_ascii c <? 128)%nat && ascii_string s'
  end.


(** A value of a request body whose string form the model gives exactly
    and in which [parseFloat] meets ASCII characters only: a safe integer,
    an ASCII string, a list of ASCII strings, a boolean, [null] or
    [undefined]. *)
Definition plain_value (v : JsValue) : bool :=
  match v with
  | JNum z => bool_decide (safe_integer z)
  | JStr s => ascii_string s
  | JStrings l => forallb ascii_string l
  | JDate _ => false
  | JUndefined | JNull | JBool _ => true
  end.

(** A value whose string form the model gives exactly: any string, a
    safe integer, a list of strings, a boolean, [null] or [undefined]. *)
Definition printable (v : JsValue) : bool :=
  match v with
  | JNum z => bool_decide (safe_integer z)
  | JDate _ => false
  | _ => true
  end.

(** The fields [fs] of [o] are strings, as the types of the validated
    data and of the mail functions say. *)
Definition string_fields (o : JsObject) (fs : list string) : bool :=
  forallb (λ f, match field o f with JStr _ => true | _ => false end) fs.


Definition applePay_details : PaymentMethodDetails :=
  {| pm_type := "card";
     card := Some {| wallet := Some {| wallet_type := "apple_pay" |} |} |}.



Definition sample_order_world : World :=
  {| storage := (createOrder {[ "amount" := JStr "5" ]} "o-1" 0 new_MemStorage).2;
     db := None; trace := [] |}.

Definition accept_all : Schemas :=
  {| insertCartItemSchema := Some; insertDonationSchema := Some |}.

Definition sample_env : Env :=
  {| env_uuid := "uuid-1"; env_now := 1700000000000;
     env_dbSelectFails := false; env_dbInsertFails := false;
     env_send := λ _, Delivered |}.

(** The amounts the validation of line 21 turns away: missing or falsy
    values, numbers that are not positive, strings that start with a minus
    sign, and values in which [parseFloat] finds no number (for plain
    values: the model's parser does not skip the white space outside
    ASCII that the code's skips), a negative number or zero. *)
Inductive invalid_amount : JsValue → Prop :=
| invalid_falsy v : falsy v = true → invalid_amount v
| invalid_number z : z ≤ 0 → invalid_amount (JNum z)
| invalid_minus_sign t : invalid_amount (JStr (String "-" t))
| invalid_not_a_number v :
    plain_value v = true → parseFloat v = PNaN → invalid_amount v
| invalid_negative v m e : parseFloat v = PDecimal true m e → invalid_amount v
| invalid_zero v neg e : parseFloat v = PDecimal neg 0 e → invalid_amount v.

(** The claim's wording, "a non-numeric amount": an amount is numeric when
    it is a number, or a string that is a decimal literal from end to end,
    white space around it aside. *)
Definition numeric_amount (v : JsValue) : bool :=
  match v with
  | JNum _ => true
  | JStr s =>
      let '(p, rest) := parse_decimal s in
      negb (isNaN p) && bool_decide (skip_ws rest = "")
  | _ => false
  end.

Definition sample_session : Session :=
  {| session_id := "cs_test_1"; session_url := Some "https://checkout.stripe.com/c/pay/cs_test_1";
     payment_intent := Some "pi_1";
     metadata := Some {[ "customerName" := "Ada"; "description" := "Bot" ]};
     customer_details := Some {| cd_name := Some "Ada L."; cd_email := Some "ada@example.com" |};
     customer_email := None; amount_total := Some 1999;
     payment_status := "paid" |}.

Definition sample_event : StripeEvent :=
  {| event_id := "evt_1"; event_type := "checkout.session.completed";
     event_object := sample_session |}.

(** A client whose calls all succeed. *)
Definition sample_sdk : StripeSdk :=
  {| constructEvent := λ _ _ _, inr sample_event;
     paymentIntents_retrieve := λ _,
       Some {| latest_charge :=
                 Some {| payment_method_details := Some applePay_details |} |};
     sessions_create := λ _, Some sample_session;
     sessions_retrieve := λ _, Some sample_session |}.


(** The world with further effects appended to its trace. *)
Definition add_trace (l : list Effect) (w : World) : World :=
  {| storage := storage w; db := db w; trace := trace w ++ l |}.

(** What a successful [sendEmail] leaves in the trace. *)
Definition sent_effects (options : EmailOptions) : list Effect :=
  [EffMail (mail_of options) true;
   EffLog ("Email sent to " +:+ to options +:+ ": " +:+ subject options)].

(** What a failing [sendEmail] leaves in the trace. *)
Definition failed_effects (options : EmailOptions) : list Effect :=
  [EffMail (mail_of options) false; EffLog "Failed to send email:"].

(** Sending a list of messages in turn stops at the first failure: the
    effects left in the trace, and the message that failed, if any. *)
Fixpoint mail_run (env : Env) (os : list EmailOptions)
    : list Effect * option Mail :=
  match os with
  | [] => ([], None)
  | o :: os' =>
      if env_mailFails env (mail_of o) then (failed_effects o, Some (mail_of o))
      else let '(l, r) := mail_run env os' in ((sent_effects o ++ l)%list, r)
  end.

Definition order_mails (orderNumber customerName customerEmail amount
    paymentMethod description : string) : list EmailOptions :=
  [customerConfirmation orderNumber customerName customerEmail amount
     paymentMethod description;
   businessNotification orderNumber customerName customerEmail amount
     paymentMethod description "allouzimohammed53@gmail.com";
   businessNotification orderNumber customerName customerEmail amount
     paymentMethod description "orders@driftv8.xyz"].

(** The provider lookup of the payment method: its effects and the label
    found ([None] when the lookup throws). *)
Definition fetch_run (sdk : StripeSdk) (session : Session)
    : list Effect * option string :=
  match truthy_str (payment_intent session) with
  | None => ([], Some "Unknown")
  | Some pi =>
      ([EffProvider (PaymentIntentsRetrieve pi)],
       intent ← paymentIntents_retrieve sdk pi;
       Some (paymentMethodLabel
               (charge ← latest_charge intent; payment_method_details charge)))
  end.

(** The mails sent for an order made from [session] with [label]. *)
Definition mails_for (session : Session) (label : string) (order : JsObject)
    : list EmailOptions :=
  let orderData := orderData_of session label in
  order_mails (string_field order "orderNumber")
    (string_field orderData "customerName")
    (string_field orderData "customerEmail")
    (string_field orderData "amount")
    (string_field orderData "paymentMethod")
    (string_field orderData "description").

Definition created_log (session : Session) (label : string) (order : JsObject)
    : Effect :=
  EffLog ("Order " +:+ string_field order "orderNumber" +:+
          " created from Stripe payment " +:+ session_id session +:+
          " using " +:+ label).

(** [materializeOrder] as a function of the store: the outcome, the store
    afterwards and the effects, in order. *)
Definition materialize_run (sdk : StripeSdk) (session : Session) (env : Env)
    (st : MemStorage) : Outcome unit * MemStorage * list Effect :=
  match (fetch_run sdk session).2 with
  | None =>
      (Throw (ProviderError "paymentIntents.retrieve"), st,
       (fetch_run sdk session).1)
  | Some label =>
      let created :=
        createOrder (orderData_of session label) (env_uuid env) (env_now env) st in
      let sent := mail_run env (mails_for session label created.1) in
      match sent.2 with
      | None =>
          (Ok tt, created.2,
           (fetch_run sdk session).1 ++ [EffCreateOrder created.1] ++ sent.1 ++
           [created_log session label created.1])
      | Some m =>
          (Throw (MailError m), created.2,
           (fetch_run sdk session).1 ++ [EffCreateOrder created.1] ++ sent.1)
      end
  end%list.

Definition ack_duplicate : Response :=
  json 200 {[ "received" := JBool true;
              "message" := JStr "Event already processed" ]}.

Definition ack_received : Response := json 200 {[ "received" := JBool true ]}.

Definition handler_failed : Response :=
  json 500 {[ "error" := JStr "Webhook handler failed" ]}.

(** A request passes verification as [event]. *)
Definition verified (sdk : StripeSdk) (webhookSecret : option string)
    (req : WebhookRequest) (event : StripeEvent) : Prop :=
  ∃ sig secret,
    truthy_str (stripe_signature req) = Some sig ∧
    truthy_str webhookSecret = Some secret ∧
    constructEvent sdk (rawBody req) sig secret = inr event.

(** The handler on a verified event, as a function of the world. *)
Definition deliver (sdk : StripeSdk) (event : StripeEvent) (env : Env)
    (w : World) : Response * World :=
  let e := event_id event in
  if isEventProcessed (db w) (env_dbSelectFails env) e (storage w) then
    (ack_duplicate,
     add_trace [EffLedgerCheck e true;
                EffLog ("Event " +:+ e +:+ " already processed, skipping")] w)
  else
    let marked := markEventProcessed (db w) (env_dbInsertFails env) e (storage w) in
    if decide (event_type event = "checkout.session.completed") then
      let '(out, st', effects) :=
        materialize_run sdk (event_object event) env marked.2 in
      match out with
      | Ok _ =>
          (ack_received,
           {| storage := st'; db := marked.1;
              trace := trace w ++
                [EffLedgerCheck e false; EffLedgerMark e] ++ effects |})
      | Throw _ =>
          (handler_failed,
           {| storage := st'; db := marked.1;
              trace := trace w ++
                [EffLedgerCheck e false; EffLedgerMark e] ++ effects ++
                [EffLog "Webhook handler error:"] |})
      end
    else
      (ack_received,
       {| storage := marked.2; db := marked.1;
          trace := trace w ++ [EffLedgerCheck e false; EffLedgerMark e] |}).

Fixpoint count_effects (p : Effect → bool) (tr : list Effect) : nat :=
  match tr with
  | [] => 0
  | e :: tr' => (if p e then 1 else 0) + count_effects p tr'
  end%nat.

Definition is_order_creation (e : Effect) : bool :=
  match e with EffCreateOrder _ => true | _ => false end.

(** A delivery of [id] got past the duplicate check. *)
Definition is_passed_check (id : string) (e : Effect) : bool :=
  match e with
  | EffLedgerCheck id' false => bool_decide (id' = id)
  | _ => false
  end.

(** Effects that neither create an order nor consult the ledger. *)
Definition is_quiet (e : Effect) : bool :=
  match e with
  | EffMail _ _ | EffProvider _ | EffLog _ => true
  | _ => false
  end.

(** The ledger the handler consults: the table when a database is
    configured, the in-memory set otherwise. *)
Definition ledger_has (id : string) (w : World) : Prop :=
  match db w with
  | None => id ∈ processedEvents (storage w)
  | Some t => id ∈ t
  end.

#[global] Instance ledger_has_dec id w : Decision (ledger_has id w).
Proof. unfold ledger_has. destruct (db w); apply _. Defined.

(** Deliveries handled one after the other. *)
Definition run_deliveries (sdk : StripeSdk) (webhookSecret : option string)
    (ds : list (WebhookRequest * Env)) (w : World) : World :=
  foldl (λ w d, (handleStripeWebhook (Some sdk) webhookSecret d.1 d.2 w).2) w ds.

(** A delivery of [event] during which the ledger's store does not fail. *)
Definition sound_delivery (sdk : StripeSdk) (webhookSecret : option string)
    (event : StripeEvent) (d : WebhookRequest * Env) : Prop :=
  verified sdk webhookSecret d.1 event ∧
  env_dbSelectFails d.2 = false ∧ env_dbInsertFails d.2 = false.

Definition sample_request : WebhookRequest :=
  {| stripe_signature := Some "t=1,v1=5257a869"; rawBody := "{}" |}.

(** A client whose payment-intent lookup throws. *)
Definition failing_lookup_sdk : StripeSdk :=
  {| constructEvent := λ _ _ _, inr sample_event;
     paymentIntents_retrieve := λ _, None;
     sessions_create := λ _, None;
     sessions_retrieve := λ _, None |}.

(** Two requests for one event whose duplicate checks are both answered
    before either handler goes on: the second request is taken up while
    the first awaits the answer of its check. *)
Definition interleaved_deliveries (sdk : StripeSdk) (event : StripeEvent)
    (envA envB : Env) (w : World) : World :=
  match st_isEventProcessed envA (event_id event) w with
  | (Ok a, w1) =>
      match st_isEventProcessed envB (event_id event) w1 with
      | (Ok b, w2) =>
          let w3 := (afterDuplicateCheck sdk event envA a w2).2 in
          (afterDuplicateCheck sdk event envB b w3).2
      | (Throw _, w2) => w2
      end
  | (Throw _, w1) => w1
  end.

Definition second_env : Env :=
  {| env_uuid := "uuid-2"; env_now := 1700000000500;
     env_dbSelectFails := false; env_dbInsertFails := false;
     env_send := λ _, Delivered |}.

(** A request during which the database refuses the insert for a reason
    other than a duplicate key. *)
Definition insert_fails_env : Env :=
  {| env_uuid := "uuid-1"; env_now := 1700000000000;
     env_dbSelectFails := false; env_dbInsertFails := true;
     env_send := λ _, Delivered |}.

Definition donation_session : Session :=
  {| session_id := "cs_don_1"; session_url := None;
     payment_intent := Some "pi_2";
     metadata := Some {[ "type" := "donation"; "donorName" := "Grace";
                         "donorEmail" := "grace@example.com";
                         "amount" := "25"; "message" := "" ]};
     customer_details := None; customer_email := Some "grace@example.com";
     amount_total := Some 2500; payment_status := "paid" |}.

Definition donation_sdk : StripeSdk :=
  {| constructEvent := λ _ _ _, inr sample_event;
     paymentIntents_retrieve := λ _, None;
     sessions_create := λ _, None;
     sessions_retrieve := λ _, Some donation_session |}.

(** The world after a first webhook delivery of [evt_1], and after a first
    visit of the donation redirect for [cs_don_1], during which the
    database refused the insert of the ledger record. *)
Definition webhook_after_refused_insert : World :=
  (handleStripeWebhook (Some sample_sdk) (Some "whsec_1") sample_request
     insert_fails_env (new_World (Some ∅))).2.

Definition donation_after_refused_insert : World :=
  (donationSuccess (Some donation_sdk) accept_all (Some "cs_don_1")
     insert_fails_env (new_World (Some ∅))).2.

(** A request during which every send call throws, and one during which
    the mail service refuses every message. *)
Definition mail_down_env : Env :=
  {| env_uuid := "uuid-1"; env_now := 1700000000000;
     env_dbSelectFails := false; env_dbInsertFails := false;
     env_send := λ _, Thrown |}.



Definition mail_refused_env : Env :=
  {| env_uuid := "uuid-1"; env_now := 1700000000000;
     env_dbSelectFails := false; env_dbInsertFails := false;
     env_send := λ _, Refused |}.




(** Fields of an order that [createOrder] sets itself. *)
Definition order_own_fields : list string :=
  ["id"; "orderNumber"; "rating"; "createdAt"].

(** Orders created one after the other: each request is the insert data,
    the UUID drawn and the time. *)
Fixpoint createOrders (reqs : list (JsObject * string * Z)) (st : MemStorage)
    : list JsObject * MemStorage :=
  match reqs with
  | [] => ([], st)
  | (ins, id, now) :: reqs' =>
      let '(o, st1) := createOrder ins id now st in
      let '(os, st2) := createOrders reqs' st1 in
      (o :: os, st2)
  end.

(** The listings, all sorted the same way. *)
Definition newest_first (l : list JsObject) : Prop :=
  StronglySorted (λ a b, createdAt_ms b ≤ createdAt_ms a) l.

(** The mails of the other two notifications, in the order in which they
    are sent. *)
Definition custom_order_mails (customerName customerEmail category description
    estimatedPrice : string) : list EmailOptions :=
  [customOrderBusinessMail customerName customerEmail category description
     estimatedPrice "allouzimohammed53@gmail.com";
   customOrderBusinessMail customerName customerEmail category description
     estimatedPrice "custom@driftv8.xyz";
   customOrderCustomerMail customerName customerEmail category description
     estimatedPrice].

Definition contact_mails (name email subject message : string)
    : list EmailOptions :=
  [{| to := "contact@driftv8.xyz";
      subject := "New Contact Form: " +:+ subject;
      text := Template "contactNotificationText" [name; email; subject; message];
      html := None |};
   {| to := email;
      subject := "We received your message - Project V8";
      text := Template "contactConfirmationText" [name; message];
      html := None |}].

(** The outcome of sending a list of mails. *)
Definition mail_outcome (env : Env) (os : list EmailOptions) : Outcome unit :=
  match (mail_run env os).2 with
  | None => Ok tt
  | Some m => Throw (MailError m)
  end.

(** The mails of [POST /api/orders] for validated data and the order made
    from it. *)
Definition posted_order_mails (validatedData order : JsObject)
    : list EmailOptions :=
  order_mails (string_field order "orderNumber")
    (js_ToString (field validatedData "customerName"))
    (js_ToString (field validatedData "customerEmail"))
    (js_ToString (field validatedData "amount"))
    (js_ToString (field validatedData "paymentMethod"))
    (js_ToString (field validatedData "description")).

Definition posted_custom_order_mails (validatedData : JsObject)
    : list EmailOptions :=
  custom_order_mails (js_ToString (field validatedData "customerName"))
    (js_ToString (field validatedData "customerEmail"))
    (js_ToString (field validatedData "category"))
    (js_ToString (field validatedData "description"))
    (js_ToString (field validatedData "estimatedPrice")).

Definition posted_contact_mails (validatedData : JsObject)
    : list EmailOptions :=
  contact_mails (js_ToString (field validatedData "name"))
    (js_ToString (field validatedData "email"))
    (js_ToString (field validatedData "subject"))
    (js_ToString (field validatedData "message")).

Definition accept_all_forms : FormSchemas :=
  {| insertOrderSchema := Some; insertCustomOrderSchema := Some;
     insertContactSubmissionSchema := Some |}.

Definition sample_order_data : JsObject :=
  {[ "customerName" := JStr "Ada"; "customerEmail" := JStr "ada@example.com";
     "amount" := JStr "19.99"; "paymentMethod" := JStr "PayPal";
     "description" := JStr "Bot" ]}.

Definition sample_custom_order_data : JsObject :=
  {[ "customerName" := JStr "Ada"; "customerEmail" := JStr "ada@example.com";
     "category" := JStr "Web"; "description" := JStr "A site";
     "estimatedPrice" := JStr "120" ]}.

Definition sample_contact_data : JsObject :=
  {[ "name" := JStr "Ada"; "email" := JStr "ada@example.com";
     "subject" := JStr "Hello"; "message" := JStr "A question" ]}.

(** The redirect targets of the donation success route. *)
Definition donation_redirects : list string :=
  ["/?donation_success=true"; "/?donation_error=missing_session";
   "/?donation_error=payment_failed"; "/?donation_error=save_failed";
   "/?donation_error=processing_failed"].

(** A session that the donation success route accepts: paid, marked as a
    donation, with donor name and address. *)
Definition paid_donation (session : Session) : Prop :=
  payment_status session = "paid" ∧
  (m ← metadata session; m !! "type") = Some "donation" ∧
  truthy_str (m ← metadata session; m !! "donorName") ≠ None ∧
  truthy_str (m ← metadata session; m !! "donorEmail") ≠ None.

(** The donation data the route builds from a session (lines 730-738). *)
Definition donationData_of (session : Session) : JsObject :=
  let meta f := m ← metadata session; m !! f in
  {[ "donorName" := JStr (or_str (meta "donorName") "");
     "donorEmail" := JStr (or_str (meta "donorEmail") "");
     "amount" := JStr (match amount_total session with
                       | Some c => if c =? 0 then "0" else div100_toFixed2 c
                       | None => "0"
                       end);
     "message" := JStr (or_str (meta "message") "") ]}.

Definition is_donation_creation (e : Effect) : bool :=
  match e with EffCreateDonation _ => true | _ => false end.

(** The mails of a manual payment for the order made from its body. *)
Definition manual_mails (body : JsObject) (amount : string) (order : JsObject)
    : list EmailOptions :=
  order_mails (string_field order "orderNumber")
    (js_ToString (field body "customerName"))
    (js_ToString (field body "customerEmail"))
    amount
    (string_field (manual_orderData body amount) "paymentMethod")
    (js_ToString (field body "description")).

Definition sample_manual_body : JsObject :=
  {[ "paymentMethod" := JStr "cashapp"; "customerName" := JStr "Ada";
     "customerEmail" := JStr "ada@example.com"; "amount" := JNum 40;
     "description" := JStr "Bot" ]}.

(** A delivery without a signature header, and an event of another kind. *)
Definition unsigned_request : WebhookRequest :=
  {| stripe_signature := None; rawBody := "{}" |}.

Definition refund_event : StripeEvent :=
  {| event_id := "evt_2"; event_type := "charge.refunded";
     event_object := sample_session |}.

Definition refund_sdk : StripeSdk :=
  {| constructEvent := λ _ _ _, inr refund_event;
     paymentIntents_retrieve := λ _, None;
     sessions_create := λ _, None;
     sessions_retrieve := λ _, None |}.

(** * Properties *)

(** Runs the monadic plumbing of a handler, leaving the store's functions
    and the object literals folded. *)
Ltac mrun :=
  cbv [mbind M_bind mret M_ret get_storage put_storage emit console throw
       try_catch run_handler log_and_answer
       st_isEventProcessed st_markEventProcessed st_createOrder
       st_createDonation];
  cbn [fst snd storage db trace].

(** ** Maps and sorting *)

Section JsMapFacts.
Context {V : Type}.
Implicit Types (m : JsMap V) (k : string).

Lemma map_get_set_eq k v m : map_get k (map_set k v m) = Some v.
Proof.
  induction m as [|[k' v'] m IH]; simpl.
  - by rewrite decide_True.
  - destruct (decide (k' = k)) as [->|Hne]; simpl.
    + by rewrite decide_True.
    + by rewrite decide_False.
Qed.

Lemma map_get_set_ne k k' v m :
  k ≠ k' → map_get k' (map_set k v m) = map_get k' m.
Proof.
  intros Hne. induction m as [|[k0 v0] m IH]; simpl.
  - by rewrite decide_False.
  - destruct (decide (k0 = k)) as [->|Hne0]; simpl.
    + by rewrite !decide_False.
    + destruct (decide (k0 = k')); [done | apply IH].
Qed.

Lemma map_get_set k k' v m :
  map_get k' (map_set k v m) =
  if decide (k = k') then Some v else map_get k' m.
Proof.
  destruct (decide (k = k')) as [->|Hne].
  - apply map_get_set_eq.
  - by apply map_get_set_ne.
Qed.

Lemma map_get_Some_elem k v m : map_get k m = Some v → (k, v) ∈ m.
Proof.
  induction m as [|[k' v'] m IH]; simpl; [done|].
  destruct (decide (k' = k)) as [->|Hne].
  - intros [= ->]. left.
  - intros H. right. by apply IH.
Qed.

Lemma map_get_None_elem k m : map_get k m = None → ∀ v, (k, v) ∉ m.
Proof.
  induction m as [|[k' v'] m IH]; simpl; intros H v Hin.
  - by apply elem_of_nil in Hin.
  - destruct (decide (k' = k)) as [->|Hne]; [done|].
    apply elem_of_cons in Hin as [[= -> ->]|Hin]; [done|].
    by eapply IH.
Qed.

Lemma map_delete_get k m : map_get k (map_delete k m).2 = None.
Proof.
  unfold map_delete. cbn [snd].
  induction m as [|[k' v'] m IH]; [done|].
  rewrite filter_cons. destruct (decide ((k', v').1 ≠ k)) as [Hne|Heq]; simpl in *.
  - by rewrite decide_False.
  - done.
Qed.

Lemma map_delete_elem k m kv : kv ∈ (map_delete k m).2 ↔ kv ∈ m ∧ kv.1 ≠ k.
Proof. unfold map_delete. cbn [snd]. rewrite list_elem_of_filter. tauto. Qed.

(** Every entry of the map after [set] is the new one or an old one. *)
Lemma map_set_elem k v m kv : kv ∈ map_set k v m → kv = (k, v) ∨ kv ∈ m.
Proof.
  induction m as [|[k' v'] m IH]; simpl.
  - intros ->%list_elem_of_singleton. by left.
  - destruct (decide (k' = k)) as [->|Hne].
    + intros [->|Hin]%elem_of_cons; [by left | right; by right].
    + intros [->|Hin]%elem_of_cons; [right; left|].
      destruct (IH Hin) as [->|Hin']; [by left | right; by right].
Qed.

End JsMapFacts.

Section SortingFacts.
Context (key : JsObject → Z).

Lemma insert_desc_elem x y l : y ∈ insert_desc key x l ↔ y = x ∨ y ∈ l.
Proof.
  induction l as [|z l IH]; simpl.
  - rewrite list_elem_of_singleton, elem_of_nil. tauto.
  - destruct (key z <=? key x).
    + rewrite !elem_of_cons. tauto.
    + rewrite !elem_of_cons, IH. tauto.
Qed.

Lemma sort_desc_elem y l : y ∈ sort_desc key l ↔ y ∈ l.
Proof.
  induction l as [|x l IH]; simpl; [done|].
  rewrite insert_desc_elem, elem_of_cons, IH. tauto.
Qed.

End SortingFacts.

(** ** The order store *)

Lemma ORD_inj : Inj (=) (=) ORD.
Proof.
  intros a b H. unfold ORD in H.
  apply (inj (String.app "ORD-")) in H. by apply (inj pretty) in H.
Qed.

Lemma orders_inv_new : orders_inv new_MemStorage.
Proof. intros id o Hin. by apply elem_of_nil in Hin. Qed.

Lemma js_incr_lt n : n < MAX_EXACT → js_incr n = n + 1.
Proof. intros H. unfold js_incr. by rewrite (proj2 (Z.ltb_lt _ _) H). Qed.

Lemma createOrder_eq ins id now st :
  createOrder ins id now st =
  let k := js_incr (orderCounter st) in
  let o : JsObject :=
    <["createdAt" := JDate now]>
      (<["rating" := JNull]>
         (<["orderNumber" := JStr (ORD k)]> (<["id" := JStr id]> ins))) in
  (o, set_orders (map_set id o (orders st)) (set_orderCounter k st)).
Proof. reflexivity. Qed.

Lemma createOrder_fields ins id now st f :
  f ∉ order_own_fields →
  (createOrder ins id now st).1 !! f = ins !! f.
Proof.
  intros Hf. rewrite createOrder_eq. cbn [fst].
  unfold order_own_fields in Hf.
  rewrite !lookup_insert_ne; [done|..]; intros <-; set_solver.
Qed.

Lemma createOrder_inv ins id now st :
  orders_inv st → 1000 ≤ orderCounter st < MAX_EXACT →
  orders_inv (createOrder ins id now st).2.
Proof.
  intros Hinv Hc. rewrite createOrder_eq, (js_incr_lt _ (proj2 Hc)).
  intros id' o' Hin. cbn in Hin.
  apply map_set_elem in Hin as [[= -> ->]|Hin].
  - split; [by simplify_map_eq|].
    exists (orderCounter st + 1). split; [by simplify_map_eq | cbn; lia].
  - destruct (Hinv _ _ Hin) as [Hid (k & Hk & Hr)].
    split; [done|]. exists k. split; [done | cbn; lia].
Qed.

Lemma updateOrderRating_inv id r st :
  orders_inv st → orders_inv (updateOrderRating id r st).2.
Proof.
  intros Hinv. unfold updateOrderRating.
  destruct (map_get id (orders st)) as [o|] eqn:Hget; [|done].
  intros id' o' Hin. cbn in Hin.
  apply map_set_elem in Hin as [[= -> ->]|Hin]; [|by apply Hinv].
  apply map_get_Some_elem, Hinv in Hget as [Hid (k & Hk & Hr)].
  split; [by simplify_map_eq|]. exists k. cbn. by simplify_map_eq.
Qed.

(** C5. Order creation issues the order number itself: whatever the
    caller put into the insert data (an [orderNumber] included), the
    returned order carries [ORD-k] for the incremented counter [k]; [k] is
    strictly greater than the number of every order already in the store,
    so that the new number differs from all of them; and in the store
    after the insertion only the new order's entry carries it. *)
Theorem C5_order_number_issued_by_store ins id now st :
  orders_inv st →
  1000 ≤ orderCounter st < MAX_EXACT →
  let k := orderCounter st + 1 in
  let o := (createOrder ins id now st).1 in
  let st' := (createOrder ins id now st).2 in
  o !! "orderNumber" = Some (JStr (ORD k)) ∧
  orderCounter st' = k ∧
  getOrder id st' = Some o ∧
  (∀ id0 o0, (id0, o0) ∈ orders st →
     ∃ k0, o0 !! "orderNumber" = Some (JStr (ORD k0)) ∧ k0 < k ∧
           o0 !! "orderNumber" ≠ o !! "orderNumber") ∧
  (∀ id1 o1, (id1, o1) ∈ orders st' →
     o1 !! "orderNumber" = o !! "orderNumber" → id1 = id ∧ o1 = o) ∧
  orders_inv st'.
Proof.
  intros Hinv Hc k o st'.
  assert (Ho : o !! "orderNumber" = Some (JStr (ORD k))).
  { subst o k. rewrite createOrder_eq, (js_incr_lt _ (proj2 Hc)).
    cbn. by simplify_map_eq. }
  assert (Hold : ∀ id0 o0, (id0, o0) ∈ orders st →
     ∃ k0, o0 !! "orderNumber" = Some (JStr (ORD k0)) ∧ k0 < k ∧
           o0 !! "orderNumber" ≠ o !! "orderNumber").
  { intros id0 o0 Hin. destruct (Hinv _ _ Hin) as [_ (k0 & Hk0 & Hr)].
    exists k0. split; [done|]. split; [subst k; lia|].
    rewrite Hk0, Ho. intros Heq.
    assert (ORD k0 = ORD k) as Hk%ORD_inj by congruence. subst k. lia. }
  split; [done|]. split.
  { subst st' k. by rewrite createOrder_eq, (js_incr_lt _ (proj2 Hc)). }
  split.
  { subst st' o. rewrite createOrder_eq. cbn. apply map_get_set_eq. }
  split; [done|]. split; [|by apply createOrder_inv].
  intros id1 o1 Hin Heq. subst st'.
  rewrite createOrder_eq in Hin. cbn in Hin.
  apply map_set_elem in Hin as [[= -> ->]|Hin]; [done|].
  destruct (Hold _ _ Hin) as (k0 & _ & _ & Hne). by destruct Hne.
Qed.

(** The hypotheses of C5 hold of a fresh store, where the first order is
    [ORD-1001], also when the caller supplies a number of its own. *)
Lemma C5_witness :
  let ins : JsObject := {[ "orderNumber" := JStr "ORD-7"; "amount" := JStr "5" ]} in
  (createOrder ins "id-1" 0 new_MemStorage).1 !! "orderNumber"
  = Some (JStr "ORD-1001").
Proof.
  intros ins.
  exact (proj1 (C5_order_number_issued_by_store ins "id-1" 0 new_MemStorage
                  orders_inv_new ltac:(by vm_compute))).
Defined.

(** ** Cart items *)

Lemma cart_inv_new : cart_inv new_MemStorage.
Proof. intros id o Hin. by apply elem_of_nil in Hin. Qed.

Lemma addCartItem_inv ins id now st :
  cart_inv st → cart_inv (addCartItem ins id now st).2.
Proof.
  intros Hinv id' o' Hin. cbn in Hin.
  apply map_set_elem in Hin as [[= -> ->]|Hin]; [|by apply Hinv].
  by simplify_map_eq.
Qed.

Lemma updateCartItemQuantity_inv id q st :
  cart_inv st → cart_inv (updateCartItemQuantity id q st).2.
Proof.
  intros Hinv. unfold updateCartItemQuantity.
  destruct (map_get id (cartItems st)) as [o|] eqn:Hget; [|done].
  intros id' o' Hin. cbn in Hin.
  apply map_set_elem in Hin as [[= -> ->]|Hin]; [|by apply Hinv].
  apply map_get_Some_elem, Hinv in Hget. by simplify_map_eq.
Qed.

Lemma removeCartItem_inv id st :
  cart_inv st → cart_inv (removeCartItem id st).2.
Proof.
  intros Hinv id' o' Hin. cbn in Hin.
  apply list_elem_of_filter in Hin as [_ Hin]. by apply Hinv.
Qed.

(** After [removeCartItem id] the listing holds no entry of key [id]. *)
Lemma getCartItems_removed id st item :
  item ∈ getCartItems (removeCartItem id st).2 →
  ∃ id', id' ≠ id ∧ (id', item) ∈ cartItems st.
Proof.
  unfold getCartItems. rewrite sort_desc_elem. cbn.
  unfold map_values. rewrite list_elem_of_fmap.
  intros ([id' o] & -> & Hin). apply list_elem_of_filter in Hin as [Hne Hin].
  by exists id'.
Qed.

Lemma addCartItem_then_update ins id now st q :
  let item := (addCartItem ins id now st).1 in
  let st' := (addCartItem ins id now st).2 in
  item !! "quantity" = Some (JStr "1") ∧
  getCartItem id st' = Some item ∧
  ∃ item', (updateCartItemQuantity id q st').1 = Some item' ∧
           item' !! "quantity" = Some (JStr (num_toString q)) ∧
           getCartItem id (updateCartItemQuantity id q st').2 = Some item'.
Proof.
  intros item st'. split; [by subst item; cbn; simplify_map_eq|].
  assert (Hget : getCartItem id st' = Some item) by apply map_get_set_eq.
  split; [done|].
  unfold updateCartItemQuantity. unfold getCartItem in Hget. rewrite Hget.
  eexists. split; [done|]. split; [by simplify_map_eq|].
  apply map_get_set_eq.
Qed.

Lemma addCartItem_all_one ins id now st :
  all_quantity_one st → all_quantity_one (addCartItem ins id now st).2.
Proof.
  intros Hall id' o' Hin. cbn in Hin.
  apply map_set_elem in Hin as [[= -> ->]|Hin]; [|by eapply Hall].
  by simplify_map_eq.
Qed.

Lemma removeCartItem_all_one id st :
  all_quantity_one st → all_quantity_one (removeCartItem id st).2.
Proof.
  intros Hall id' o' Hin. cbn in Hin.
  apply list_elem_of_filter in Hin as [_ Hin]. by eapply Hall.
Qed.

Lemma clearCart_all_one st : all_quantity_one (clearCart st).
Proof. intros id o Hin. by apply elem_of_nil in Hin. Qed.

(** C10. [addCartItem] stores the new item with quantity ["1"] whatever
    the insert data holds, a [quantity] of the caller's included, and the
    item returned is the one stored.  Another quantity comes only from
    [updateCartItemQuantity], which sets the quantity asked for (printed
    with all its digits, the quantity being a safe integer): a cart in
    which every item has quantity ["1"] stays so under [addCartItem],
    [removeCartItem] and [clearCart]. *)
Theorem C10_addCartItem_quantity_is_one ins id now st q :
  let item := (addCartItem ins id now st).1 in
  let st' := (addCartItem ins id now st).2 in
  item !! "quantity" = Some (JStr "1") ∧
  getCartItem id st' = Some item ∧
  (safe_integer q →
   ∃ item', (updateCartItemQuantity id q st').1 = Some item' ∧
            item' !! "quantity" = Some (JStr (num_toString q)) ∧
            getCartItem id (updateCartItemQuantity id q st').2 = Some item') ∧
  (all_quantity_one st →
     all_quantity_one st' ∧
     (∀ id', all_quantity_one (removeCartItem id' st).2) ∧
     all_quantity_one (clearCart st)).
Proof.
  intros item st'.
  destruct (addCartItem_then_update ins id now st q) as (H1 & H2 & H3).
  split; [done|]. split; [done|]. split; [done|].
  intros Hall. split; [by apply addCartItem_all_one|].
  split; [intros id'; by apply removeCartItem_all_one|].
  apply clearCart_all_one.
Qed.

Lemma all_quantity_one_new : all_quantity_one new_MemStorage.
Proof. intros id o Hin. by apply elem_of_nil in Hin. Qed.

Lemma C10_witness :
  let ins : JsObject := {[ "name" := JStr "Bot"; "quantity" := JStr "7" ]} in
  (addCartItem ins "c-1" 0 new_MemStorage).1 !! "quantity" = Some (JStr "1") ∧
  (∃ item',
     (updateCartItemQuantity "c-1" 2 (addCartItem ins "c-1" 0 new_MemStorage).2).1
       = Some item' ∧
     item' !! "quantity" = Some (JStr "2")) ∧
  all_quantity_one (addCartItem ins "c-1" 0 new_MemStorage).2.
Proof.
  intros ins.
  destruct (C10_addCartItem_quantity_is_one ins "c-1" 0 new_MemStorage 2)
    as (H1 & _ & H3 & H4).
  split; [exact H1|]. split.
  - destruct H3 as (item' & Hu & Hq & _); [by vm_compute|].
    exists item'. split; [exact Hu | exact Hq].
  - apply H4. exact all_quantity_one_new.
Defined.

(** ** Rating updates *)

(** C8. [PATCH /api/orders/:id/rating]: a rating below 1 or above 5 (0
    and 6 among them) is answered with 400 and the world is left as it
    was; rating 3 on an existing order answers with that order, its rating
    the string "3", and stores it; a rating in range for an id the store
    does not know is answered with 404 and nothing changes. *)
Theorem C8_rating_update id (body : JsObject) r w :
  field body "rating" = JNum r →
  (r < 1 ∨ 5 < r →
     patchOrderRating id body w =
       (json 400 {[ "error" := JStr "Rating must be between 1 and 5" ]}, w)) ∧
  (r = 3 → ∀ o, getOrder id (storage w) = Some o →
     ∃ o', (patchOrderRating id body w).1 = json 200 o' ∧
           o' !! "rating" = Some (JStr "3") ∧
           o' = <["rating" := JStr "3"]> o ∧
           getOrder id (storage (patchOrderRating id body w).2) = Some o') ∧
  (1 ≤ r ≤ 5 → getOrder id (storage w) = None →
     (patchOrderRating id body w).1 =
       json 404 {[ "error" := JStr "Order not found" ]} ∧
     storage (patchOrderRating id body w).2 = storage w).
Proof.
  intros Hr. unfold patchOrderRating. rewrite Hr.
  split; [|split].
  - intros Hout.
    assert ((r <? 1) || (5 <? r) = true) as ->.
    { apply orb_true_iff. destruct Hout; [left|right]; by apply Z.ltb_lt. }
    mrun. by destruct w.
  - intros -> o Hget. change ((3 <? 1) || (5 <? 3)) with false.
    mrun. unfold updateOrderRating.
    unfold getOrder in Hget. rewrite Hget. cbn.
    eexists. split; [done|]. split; [by simplify_map_eq|]. split; [done|].
    apply map_get_set_eq.
  - intros Hin Hget.
    assert ((r <? 1) || (5 <? r) = false) as ->.
    { apply orb_false_iff. split; apply Z.ltb_ge; lia. }
    mrun. unfold updateOrderRating. unfold getOrder in Hget. rewrite Hget.
    done.
Qed.

Lemma C8_witness :
  (patchOrderRating "o-1" {[ "rating" := JNum 0 ]} sample_order_world).1.(status) = 400 ∧
  (patchOrderRating "o-1" {[ "rating" := JNum 6 ]} sample_order_world).2 = sample_order_world ∧
  (∃ o', (patchOrderRating "o-1" {[ "rating" := JNum 3 ]} sample_order_world).1 = json 200 o'
         ∧ o' !! "rating" = Some (JStr "3")) ∧
  (patchOrderRating "o-2" {[ "rating" := JNum 3 ]} sample_order_world).1.(status) = 404.
Proof.
  split; [|split; [|split]].
  - destruct (C8_rating_update "o-1" {[ "rating" := JNum 0 ]} 0 sample_order_world
                ltac:(by vm_compute)) as [H _].
    rewrite H; [reflexivity | lia].
  - destruct (C8_rating_update "o-1" {[ "rating" := JNum 6 ]} 6 sample_order_world
                ltac:(by vm_compute)) as [H _].
    rewrite H; [reflexivity | lia].
  - destruct (C8_rating_update "o-1" {[ "rating" := JNum 3 ]} 3 sample_order_world
                ltac:(by vm_compute)) as (_ & H & _).
    destruct (H eq_refl _ ltac:(by vm_compute)) as (o' & H1 & H2 & _). by exists o'.
  - destruct (C8_rating_update "o-2" {[ "rating" := JNum 3 ]} 3 sample_order_world
                ltac:(by vm_compute)) as (_ & _ & H).
    destruct H as [H _]; [lia | by vm_compute |]. by rewrite H.
Defined.

(** ** The cart scenario *)

Lemma postCart_spec schemas body data env w :
  insertCartItemSchema schemas body = Some data →
  postCart schemas body env w =
    (json 201 (addCartItem data (env_uuid env) (env_now env) (storage w)).1,
     {| storage := (addCartItem data (env_uuid env) (env_now env) (storage w)).2;
        db := db w; trace := trace w |}).
Proof. intros H. unfold postCart. rewrite H. by mrun. Qed.

Lemma patchCart_spec id (body : JsObject) q w :
  field body "quantity" = JNum q → 1 ≤ q →
  patchCart id body w =
    (match (updateCartItemQuantity id q (storage w)).1 with
     | Some i => json 200 i
     | None => json 404 {[ "error" := JStr "Cart item not found" ]}
     end,
     {| storage := (updateCartItemQuantity id q (storage w)).2;
        db := db w; trace := trace w |}).
Proof.
  intros H Hq. unfold patchCart. rewrite H.
  rewrite (proj2 (Z.ltb_ge q 1)) by done. mrun.
  by destruct (updateCartItemQuantity id q (storage w)) as [[i|] st'].
Qed.

Lemma deleteCartItem_spec id w :
  deleteCartItem id w =
    (if map_has id (cartItems (storage w))
     then {| status := 204; body := BEmpty |}
     else json 404 {[ "error" := JStr "Cart item not found" ]},
     {| storage := (removeCartItem id (storage w)).2;
        db := db w; trace := trace w |}).
Proof.
  unfold deleteCartItem. mrun. unfold removeCartItem, map_delete.
  by destruct (map_has id (cartItems (storage w))).
Qed.

Lemma getCart_spec w :
  getCart w = ({| status := 200; body := BJsonList (getCartItems (storage w)) |}, w).
Proof. unfold getCart. mrun. by destruct w. Qed.

(** C9. [POST /api/cart] with a body that the schema accepts (with or
    without a quantity field) creates an item of quantity "1"; [PATCH]ing
    that item with quantity 3 returns it with quantity "3"; [DELETE]ing it
    succeeds, and the list returned by [GET /api/cart] afterwards holds
    neither the item nor any other entry with its id. *)
Theorem C9_cart_scenario schemas (body data patch : JsObject) env w :
  cart_inv (storage w) →
  insertCartItemSchema schemas body = Some data →
  field patch "quantity" = JNum 3 →
  let id := env_uuid env in
  let '(r1, w1) := postCart schemas body env w in
  let '(r2, w2) := patchCart id patch w1 in
  let '(r3, w3) := deleteCartItem id w2 in
  let '(r4, w4) := getCart w3 in
  ∃ item item' listed,
    r1 = json 201 item ∧ item !! "quantity" = Some (JStr "1") ∧
    item !! "id" = Some (JStr id) ∧
    r2 = json 200 item' ∧ item' !! "quantity" = Some (JStr "3") ∧
    item' = <["quantity" := JStr "3"]> item ∧
    r3 = {| status := 204; body := BEmpty |} ∧
    r4 = {| status := 200; body := BJsonList listed |} ∧
    (item ∉ listed) ∧ (item' ∉ listed) ∧
    ∀ x, x ∈ listed → x !! "id" ≠ Some (JStr id).
Proof.
  intros Hinv Hschema Hpatch id. subst id.
  rewrite (postCart_spec _ _ _ _ _ Hschema).
  rewrite (patchCart_spec _ _ 3 _ Hpatch) by lia.
  rewrite deleteCartItem_spec, getCart_spec.
  cbn [storage db trace].
  set (id := env_uuid env). set (st0 := storage w).
  set (item := (addCartItem data id (env_now env) st0).1).
  set (st1 := (addCartItem data id (env_now env) st0).2).
  destruct (addCartItem_then_update data id (env_now env) st0 3)
    as (Hq1 & Hget1 & item' & Hupd & Hq3 & Hget3).
  fold item st1 in Hq1, Hget1, Hupd, Hq3, Hget3.
  rewrite Hupd.
  set (st2 := (updateCartItemQuantity id 3 st1).2) in *.
  assert (Hitem' : item' = <["quantity" := JStr "3"]> item).
  { unfold updateCartItemQuantity in Hupd. unfold getCartItem in Hget1.
    rewrite Hget1 in Hupd. by injection Hupd as <-. }
  assert (Hid : item !! "id" = Some (JStr id)) by (subst item; cbn; by simplify_map_eq).
  assert (Hid' : item' !! "id" = Some (JStr id)) by (subst item'; by simplify_map_eq).
  assert (Hhas : map_has id (cartItems st2) = true).
  { unfold map_has. unfold getCartItem in Hget3. by rewrite Hget3. }
  rewrite Hhas.
  assert (Hinv2 : cart_inv st2).
  { by apply updateCartItemQuantity_inv, addCartItem_inv. }
  assert (Hlisted : ∀ x, x ∈ getCartItems (removeCartItem id st2).2 →
                         x !! "id" ≠ Some (JStr id)).
  { intros x Hx. apply getCartItems_removed in Hx as (id' & Hne & Hin).
    rewrite (Hinv2 _ _ Hin). congruence. }
  exists item, item', (getCartItems (removeCartItem id st2).2).
  repeat split; try done.
  - intros Hin. by apply Hlisted in Hin.
  - intros Hin. by apply Hlisted in Hin.
Qed.

Lemma C9_witness :
  let w := new_World None in
  let '(r1, w1) := postCart accept_all {[ "productId" := JStr "p1" ]} sample_env w in
  let '(r2, w2) := patchCart "uuid-1" {[ "quantity" := JNum 3 ]} w1 in
  let '(r3, w3) := deleteCartItem "uuid-1" w2 in
  let '(r4, w4) := getCart w3 in
  ∃ item item' listed,
    r1 = json 201 item ∧ item !! "quantity" = Some (JStr "1") ∧
    item !! "id" = Some (JStr "uuid-1") ∧
    r2 = json 200 item' ∧ item' !! "quantity" = Some (JStr "3") ∧
    item' = <["quantity" := JStr "3"]> item ∧
    r3 = {| status := 204; body := BEmpty |} ∧
    r4 = {| status := 200; body := BJsonList listed |} ∧
    (item ∉ listed) ∧ (item' ∉ listed) ∧
    ∀ x, x ∈ listed → x !! "id" ≠ Some (JStr "uuid-1").
Proof.
  exact (C9_cart_scenario accept_all {[ "productId" := JStr "p1" ]}
           {[ "productId" := JStr "p1" ]} {[ "quantity" := JNum 3 ]}
           sample_env (new_World None) cart_inv_new eq_refl
           ltac:(by vm_compute)).
Defined.

(** ** Checkout amounts *)

(** With a negative sign in front, whatever [parseFloat] reads is not a
    number or is at most zero. *)
Lemma parse_unsigned_negative t :
  let p := (parse_unsigned true t).1 in isNaN p || le_zero p = true.
Proof.
  unfold parse_unsigned.
  destruct (strip_prefix "Infinity" t); [done|].
  destruct (read_digits t 0 0) as [[m1 n1] r1].
  set (mid := match r1 with String "." r => _ | _ => _ end).
  destruct mid as [[m n2] r2].
  destruct ((n1 =? 0) && (n2 =? 0))%nat; [done|].
  by destruct (read_exponent r2).
Qed.

Lemma negative_string_rejected t : amount_rejected (JStr (String "-" t)) = true.
Proof.
  unfold amount_rejected, parseFloat. cbn [js_ToString].
  change (parse_decimal (String "-" t)) with (parse_unsigned true t).
  rewrite <-orb_assoc. apply orb_true_iff. right. apply parse_unsigned_negative.
Qed.

Lemma nonpositive_number_rejected z : z ≤ 0 → amount_rejected (JNum z) = true.
Proof.
  intros Hz. destruct z as [|p|p]; [done | lia |].
  unfold amount_rejected, parseFloat. cbn [js_ToString falsy].
  change (pretty (Z.neg p)) with (String "-" (pretty (N.pos p))).
  change (parse_decimal (String "-" (pretty (N.pos p))))
    with (parse_unsigned true (pretty (N.pos p))).
  rewrite <-orb_assoc. apply orb_true_iff. right. apply parse_unsigned_negative.
Qed.

Lemma invalid_amount_rejected v : invalid_amount v → amount_rejected v = true.
Proof.
  destruct 1 as [v H|z H|t|v _ H|v m e H|v neg e H].
  - unfold amount_rejected. by rewrite H.
  - by apply nonpositive_number_rejected.
  - apply negative_string_rejected.
  - unfold amount_rejected. rewrite H. cbn. by rewrite orb_true_r.
  - unfold amount_rejected. rewrite H. cbn. by rewrite orb_true_r.
  - unfold amount_rejected. rewrite H. cbn. by rewrite !orb_true_r.
Qed.

(** C7, as stated, fails twice.  The amount "5abc" is not numeric, yet the
    validation reads its leading 5: the provider is called and the
    response is 200.  And without a configured provider the amount "-5" is
    answered with 503, not with a 400-class status. *)
Lemma C7_counterexample :
  numeric_amount (JStr "5abc") = false ∧
  (let '(r, w') :=
     createStripeCheckoutSession (Some sample_sdk) None
       {[ "amount" := JStr "5abc" ]} (new_World None) in
   status r = 200 ∧
   trace w' = [EffProvider (SessionsCreate
                 (checkout_params None {[ "amount" := JStr "5abc" ]}))]) ∧
  status (createStripeCheckoutSession None None
            {[ "amount" := JStr "-5" ]} (new_World None)).1 = 503.
Proof. by vm_compute. Qed.

(** C7 (amended). With the provider configured, an amount that is missing
    or falsy, a number that is not positive, a string with a minus sign,
    a value in which [parseFloat] reads a negative number or zero, or a
    plain value (a string of ASCII characters, say) in which it finds no
    number is answered with 400 before any provider call: the world, its
    trace of provider calls included, is unchanged.  Without a configured
    provider the answer is 503, and no provider call is made either. *)
Theorem C7_checkout_rejects_invalid_amount stripe baseUrl (body : JsObject) w :
  invalid_amount (field body "amount") →
  createStripeCheckoutSession stripe baseUrl body w =
    (match stripe with
     | Some _ =>
         json 400 {[ "error" :=
           JStr "Invalid amount. Amount must be a positive number." ]}
     | None =>
         json 503 {[ "error" :=
           JStr "Stripe is not configured. Please set up Stripe credentials." ]}
     end, w).
Proof.
  intros H%invalid_amount_rejected. unfold createStripeCheckoutSession.
  destruct stripe as [sdk|]; [rewrite H|]; mrun; by destruct w.
Qed.

Lemma C7_witness :
  createStripeCheckoutSession (Some sample_sdk) None
    {[ "amount" := JStr "-5" ]} (new_World None) =
  (json 400 {[ "error" :=
     JStr "Invalid amount. Amount must be a positive number." ]},
   new_World None) ∧
  createStripeCheckoutSession (Some sample_sdk) None
    {[ "amount" := JStr "abc" ]} (new_World None) =
  (json 400 {[ "error" :=
     JStr "Invalid amount. Amount must be a positive number." ]},
   new_World None).
Proof.
  split.
  - apply (C7_checkout_rejects_invalid_amount (Some sample_sdk) None
             {[ "amount" := JStr "-5" ]} (new_World None)).
    change (field {[ "amount" := JStr "-5" ]} "amount")
      with (JStr (String "-" "5")).
    apply invalid_minus_sign.
  - apply (C7_checkout_rejects_invalid_amount (Some sample_sdk) None
             {[ "amount" := JStr "abc" ]} (new_World None)).
    apply invalid_not_a_number; by vm_compute.
Defined.

(** ** The webhook pipeline *)

Lemma add_trace_add_trace l1 l2 w :
  add_trace l2 (add_trace l1 w) = add_trace (l1 ++ l2) w.
Proof. unfold add_trace. cbn. by rewrite app_assoc. Qed.

Lemma add_trace_nil w : add_trace [] w = w.
Proof. destruct w. unfold add_trace. cbn. by rewrite app_nil_r. Qed.

Lemma sendEmail_spec env options w :
  sendEmail env options w =
  if env_mailFails env (mail_of options)
  then (Throw (MailError (mail_of options)), add_trace (failed_effects options) w)
  else (Ok tt, add_trace (sent_effects options) w).
Proof.
  unfold sendEmail, add_trace, sent_effects, failed_effects.
  destruct (env_mailFails env (mail_of options)); mrun;
    by rewrite <-app_assoc.
Qed.

Lemma sendOrderConfirmation_spec n c e a p d env w :
  sendOrderConfirmation n c e a p d env w =
  (match (mail_run env (order_mails n c e a p d)).2 with
   | None => Ok tt
   | Some m => Throw (MailError m)
   end,
   add_trace (mail_run env (order_mails n c e a p d)).1 w).
Proof.
  unfold sendOrderConfirmation, order_mails, mail_run.
  cbv [mbind M_bind]. rewrite !sendEmail_spec.
  destruct (env_mailFails env (mail_of (customerConfirmation n c e a p d)));
    [done|].
  rewrite sendEmail_spec.
  destruct (env_mailFails env (mail_of (businessNotification n c e a p d _)));
    [by rewrite add_trace_add_trace|].
  rewrite sendEmail_spec.
  destruct (env_mailFails env (mail_of (businessNotification n c e a p d _)));
    cbn [fst snd]; by rewrite !add_trace_add_trace, ?app_nil_r, ?app_assoc.
Qed.

Lemma fetchPaymentMethodType_spec sdk session w :
  fetchPaymentMethodType sdk session w =
  (match (fetch_run sdk session).2 with
   | Some label => Ok label
   | None => Throw (ProviderError "paymentIntents.retrieve")
   end,
   add_trace (fetch_run sdk session).1 w).
Proof.
  unfold fetchPaymentMethodType, fetch_run.
  destruct (truthy_str (payment_intent session)) as [pi|]; cbn [fst snd].
  - mrun. by destruct (paymentIntents_retrieve sdk pi).
  - mrun. by rewrite add_trace_nil.
Qed.

Lemma materializeOrder_spec sdk session env w :
  materializeOrder sdk session env w =
  let '(out, st', effects) := materialize_run sdk session env (storage w) in
  (out, {| storage := st'; db := db w; trace := trace w ++ effects |}).
Proof.
  unfold materializeOrder, materialize_run.
  cbv [mbind M_bind]. rewrite fetchPaymentMethodType_spec.
  destruct (fetch_run sdk session) as [pre [label|]]; cbn [fst snd]; [|done].
  mrun. change (storage (add_trace pre w)) with (storage w).
  destruct (createOrder (orderData_of session label) (env_uuid env)
              (env_now env) (storage w)) as [order st'] eqn:Hc.
  mrun. rewrite sendOrderConfirmation_spec.
  fold (mails_for session label order).
  destruct (mail_run env (mails_for session label order)) as [ml [m|]];
    cbn [fst snd]; unfold add_trace; cbn [storage db trace];
    by rewrite <-?app_assoc.
Qed.

Lemma handleStripeWebhook_verified sdk secret req event env w :
  verified sdk secret req event →
  handleStripeWebhook (Some sdk) secret req env w = deliver sdk event env w.
Proof.
  intros (sig & sec & Hsig & Hsec & Hev).
  unfold handleStripeWebhook, processEvent, afterDuplicateCheck, deliver.
  rewrite Hsig, Hsec, Hev. mrun.
  destruct (isEventProcessed _ _ _ _).
  { unfold add_trace. cbn [storage db trace]. by rewrite <-app_assoc. }
  destruct (markEventProcessed _ _ _ _) as [d st1] eqn:Hm. mrun.
  destruct (decide (event_type event = "checkout.session.completed")).
  - rewrite materializeOrder_spec. cbn [storage db trace].
    destruct (materialize_run _ _ _ _) as [[[[]|x] st2] effects];
      cbn [storage db trace]; by rewrite <-?app_assoc.
  - mrun. by rewrite <-app_assoc.
Qed.

(** *** Counting effects *)

Lemma count_effects_app p l1 l2 :
  count_effects p (l1 ++ l2) = (count_effects p l1 + count_effects p l2)%nat.
Proof. induction l1 as [|e l1 IH]; cbn; [done|]. rewrite IH. lia. Qed.

Lemma count_effects_quiet p l :
  (∀ e, p e = true → is_quiet e = false) →
  forallb is_quiet l = true → count_effects p l = 0%nat.
Proof.
  intros Hp. induction l as [|e l IH]; cbn; [done|].
  intros [He Hl]%andb_true_iff. rewrite (IH Hl).
  destruct (p e) eqn:Hpe; [|done]. apply Hp in Hpe. congruence.
Qed.

Lemma mail_run_quiet env os : forallb is_quiet (mail_run env os).1 = true.
Proof.
  induction os as [|o os IH]; cbn; [done|].
  destruct (env_mailFails env (mail_of o)); [done|].
  by destruct (mail_run env os).
Qed.

Lemma fetch_run_quiet sdk session :
  forallb is_quiet (fetch_run sdk session).1 = true.
Proof. unfold fetch_run. by destruct (truthy_str _). Qed.

(** [materializeOrder] leaves the ledger alone and creates at most one
    order, exactly one when the provider lookup succeeds. *)
Lemma materialize_run_frame sdk session env st :
  let '(out, st', effects) := materialize_run sdk session env st in
  processedEvents st' = processedEvents st ∧
  (∀ id, count_effects (is_passed_check id) effects = 0%nat) ∧
  count_effects is_order_creation effects =
    (if (fetch_run sdk session).2 is Some _ then 1 else 0)%nat.
Proof.
  unfold materialize_run.
  pose proof (fetch_run_quiet sdk session) as Hf.
  assert (Hq1 : ∀ id e, is_passed_check id e = true → is_quiet e = false)
    by (by intros id []).
  assert (Hq2 : ∀ e, is_order_creation e = true → is_quiet e = false)
    by (by intros []).
  destruct (fetch_run sdk session) as [pre [label|]]; cbn [fst snd] in *.
  - pose proof (mail_run_quiet env
      (mails_for session label
         (createOrder (orderData_of session label) (env_uuid env)
            (env_now env) st).1)) as Hm.
    destruct (mail_run env _) as [ml [m|]]; cbn [fst snd] in *; cbv beta iota;
      (split; [reflexivity|]); split.
    + intros id. rewrite !count_effects_app.
      by rewrite (count_effects_quiet _ pre), (count_effects_quiet _ ml) by eauto.
    + rewrite !count_effects_app.
      by rewrite (count_effects_quiet _ pre), (count_effects_quiet _ ml) by eauto.
    + intros id. rewrite !count_effects_app.
      by rewrite (count_effects_quiet _ pre), (count_effects_quiet _ ml) by eauto.
    + rewrite !count_effects_app.
      by rewrite (count_effects_quiet _ pre), (count_effects_quiet _ ml) by eauto.
  - split; [reflexivity|]. split.
    + intros id. apply count_effects_quiet; eauto.
    + apply count_effects_quiet; eauto.
Qed.

(** *** The ledger without store failures *)

Lemma isEventProcessed_ledger id w :
  isEventProcessed (db w) false id (storage w) = true ↔ ledger_has id w.
Proof.
  destruct w as [st [t|] tr];
    unfold isEventProcessed, ledger_has, processedEvents_has, db_select;
    cbn [db storage].
  - destruct (decide (id ∈ t)); rewrite bool_decide_eq_true; cbn; split;
      (done || lia).
  - apply bool_decide_eq_true.
Qed.

Lemma markEventProcessed_ledger id id' d st d' st' :
  markEventProcessed d false id st = (d', st') →
  (ledger_has id' {| storage := st; db := d; trace := [] |} ∨ id' = id) ↔
  ledger_has id' {| storage := st'; db := d'; trace := [] |}.
Proof.
  unfold markEventProcessed, ledger_has, db_insert, processedEvents_add.
  destruct d as [t|]; cbn.
  - destruct (decide (id ∈ t)); intros [= <- <-]; set_solver.
  - intros [= <- <-]. cbn. set_solver.
Qed.

(** One delivery of a verified event when the ledger's store does not
    fail.  A recorded event is skipped; an event that is not recorded is
    recorded and passes the check, creating at most one order. *)
Lemma deliver_step sdk event env w :
  env_dbSelectFails env = false → env_dbInsertFails env = false →
  ∃ suffix,
    trace (deliver sdk event env w).2 = trace w ++ suffix ∧
    ledger_has (event_id event) (deliver sdk event env w).2 ∧
    (ledger_has (event_id event) w →
       count_effects (is_passed_check (event_id event)) suffix = 0%nat ∧
       count_effects is_order_creation suffix = 0%nat) ∧
    (¬ ledger_has (event_id event) w →
       count_effects (is_passed_check (event_id event)) suffix = 1%nat ∧
       count_effects is_order_creation suffix =
         (if decide (event_type event = "checkout.session.completed")
          then if (fetch_run sdk (event_object event)).2 is Some _ then 1 else 0
          else 0)%nat).
Proof.
  intros Hsel Hins. unfold deliver. rewrite Hsel, Hins.
  pose proof (isEventProcessed_ledger (event_id event) w) as Hled.
  destruct (isEventProcessed _ _ _ _).
  { eexists. split; [reflexivity|].
    split; [by apply Hled|]. split; [done|].
    intros Hn. by destruct Hn; apply Hled. }
  assert (Hnot : ¬ ledger_has (event_id event) w).
  { intros H. apply Hled in H. discriminate. }
  destruct (markEventProcessed _ _ _ _) as [d st1] eqn:Hm. cbn [fst snd].
  pose proof (proj1 (markEventProcessed_ledger _ (event_id event) _ _ _ _ Hm)
                (or_intror eq_refl)) as Hmarked.
  assert (Hcheck : ∀ l, count_effects (is_passed_check (event_id event))
            ([EffLedgerCheck (event_id event) false;
              EffLedgerMark (event_id event)] ++ l) =
            S (count_effects (is_passed_check (event_id event)) l)).
  { intros l. cbn. by rewrite bool_decide_eq_true_2. }
  destruct (decide (event_type event = "checkout.session.completed")).
  - pose proof (materialize_run_frame sdk (event_object event) env st1) as Hf.
    destruct (materialize_run _ _ _ _) as [[out st2] effects].
    destruct Hf as (Hpe & Hc0 & Hc1).
    assert (Hl2 : ∀ tr, ledger_has (event_id event)
                    {| storage := st2; db := d; trace := tr |}).
    { intros tr. unfold ledger_has in *. cbn [db storage] in *.
      destruct d; [done|]. by rewrite Hpe. }
    destruct out as [[]|x].
    + eexists. split; [reflexivity|]. split; [apply Hl2|].
      split; [done|]. intros _. rewrite Hcheck, Hc0. split; [done|].
      by rewrite count_effects_app.
    + eexists. split; [reflexivity|]. split; [apply Hl2|].
      split; [done|]. intros _. rewrite Hcheck, !count_effects_app, Hc0.
      split; [done|]. cbn. lia.
  - eexists. split; [reflexivity|]. split; [done|]. split; [done|].
    intros _. split; [|done]. specialize (Hcheck []). by rewrite app_nil_r in Hcheck.
Qed.

Lemma run_deliveries_spec sdk secret event ds : ∀ w,
  Forall (sound_delivery sdk secret event) ds →
  ∃ suffix,
    trace (run_deliveries sdk secret ds w) = trace w ++ suffix ∧
    (ledger_has (event_id event) w ∨ ds ≠ [] →
       ledger_has (event_id event) (run_deliveries sdk secret ds w)) ∧
    (ledger_has (event_id event) w ∨ ds = [] →
       count_effects (is_passed_check (event_id event)) suffix = 0%nat ∧
       count_effects is_order_creation suffix = 0%nat) ∧
    (¬ ledger_has (event_id event) w → ds ≠ [] →
       count_effects (is_passed_check (event_id event)) suffix = 1%nat ∧
       count_effects is_order_creation suffix =
         (if decide (event_type event = "checkout.session.completed")
          then if (fetch_run sdk (event_object event)).2 is Some _ then 1 else 0
          else 0)%nat).
Proof.
  induction ds as [|d ds IH]; intros w Hall.
  { exists []. cbn. rewrite app_nil_r. split; [done|].
    split; [by intros [|]|]. split; [done|]. by intros _ []. }
  apply Forall_cons in Hall as [(Hv & Hsel & Hins) Hall].
  unfold run_deliveries. cbn [foldl].
  rewrite (handleStripeWebhook_verified _ _ _ _ _ _ Hv).
  fold (run_deliveries sdk secret ds (deliver sdk event d.2 w).2).
  destruct (deliver_step sdk event d.2 w Hsel Hins)
    as (s1 & Ht1 & Hl1 & Hyes & Hno).
  destruct (IH (deliver sdk event d.2 w).2 Hall) as (s2 & Ht2 & Hl2 & Hz2 & _).
  exists (s1 ++ s2). rewrite Ht2, Ht1, app_assoc.
  split; [done|]. split; [intros _; apply Hl2; by left|].
  destruct (Hz2 (or_introl Hl1)) as [Hp2 Hc2].
  rewrite !count_effects_app, Hp2, Hc2, !Nat.add_0_r.
  split.
  - intros [Hl|]; [by apply Hyes | done].
  - intros Hn _. by apply Hno.
Qed.

(** C1, as stated, fails: "exactly one created order" does not hold.  The
    completed-checkout event [evt_1] is delivered twice to a fresh store;
    the first delivery records the event and then fails on the provider
    lookup (answer 500), the second is skipped as a duplicate: the ledger
    holds the event and no order exists. *)
Lemma C1_counterexample :
  let d := (sample_request, sample_env) in
  let w := run_deliveries failing_lookup_sdk (Some "whsec_1") [d; d]
             (new_World None) in
  status (handleStripeWebhook (Some failing_lookup_sdk) (Some "whsec_1")
            sample_request sample_env (new_World None)).1 = 500 ∧
  processedEvents_has "evt_1" (storage w) = true ∧
  count_effects is_order_creation (trace w) = 0%nat ∧
  orders (storage w) = [].
Proof. by vm_compute. Qed.

(** C1 (amended). When the deliveries of one verified event are handled
    one after the other and the ledger's store does not fail, the ledger
    holds the event afterwards, at most one delivery gets past the
    duplicate check and at most one order is created; exactly one delivery
    gets past the check when the event was not recorded before, and it
    creates exactly one order when the event is a completed checkout whose
    payment-method lookup succeeds. *)
Theorem C1_sequential_deliveries sdk secret event ds w :
  Forall (sound_delivery sdk secret event) ds →
  ds ≠ [] →
  ∃ suffix,
    trace (run_deliveries sdk secret ds w) = trace w ++ suffix ∧
    ledger_has (event_id event) (run_deliveries sdk secret ds w) ∧
    (count_effects (is_passed_check (event_id event)) suffix ≤ 1)%nat ∧
    (count_effects is_order_creation suffix ≤ 1)%nat ∧
    (¬ ledger_has (event_id event) w →
       count_effects (is_passed_check (event_id event)) suffix = 1%nat ∧
       (event_type event = "checkout.session.completed" →
        is_Some (fetch_run sdk (event_object event)).2 →
        count_effects is_order_creation suffix = 1%nat)).
Proof.
  intros Hall Hne.
  destruct (run_deliveries_spec sdk secret event ds w Hall)
    as (suffix & Ht & Hl & Hyes & Hno).
  exists suffix. split; [done|]. split; [apply Hl; by right|].
  destruct (decide (ledger_has (event_id event) w)) as [Hin|Hout].
  - destruct (Hyes (or_introl Hin)) as [-> ->].
    split; [lia|]. split; [lia|]. done.
  - destruct (Hno Hout Hne) as [Hp Hc]. rewrite Hp, Hc.
    split; [lia|]. split.
    + repeat case_match; lia.
    + intros _. split; [done|]. intros Hty [label Hlabel].
      rewrite decide_True by done. by rewrite Hlabel.
Qed.

Lemma sample_verified sdk :
  constructEvent sdk = (λ _ _ _, inr sample_event) →
  verified sdk (Some "whsec_1") sample_request sample_event.
Proof.
  intros H. exists "t=1,v1=5257a869", "whsec_1". by rewrite H.
Defined.

Lemma C1_witness :
  let d := (sample_request, sample_env) in
  ∃ suffix,
    trace (run_deliveries sample_sdk (Some "whsec_1") [d; d; d] (new_World None))
      = [] ++ suffix ∧
    count_effects is_order_creation suffix = 1%nat.
Proof.
  intros d.
  destruct (C1_sequential_deliveries sample_sdk (Some "whsec_1") sample_event
              [d; d; d] (new_World None)) as (suffix & Ht & _ & _ & _ & H).
  - repeat constructor; by apply sample_verified.
  - discriminate.
  - exists suffix. split; [exact Ht|].
    apply H; [by vm_compute | reflexivity | by eexists].
Defined.

(** The two hypotheses of the theorem above matter.  When the database refuses the
    insert of the first delivery, the marker goes to the in-memory set
    only, which a later check that reaches the database does not read:
    the second delivery passes the check too.  And when the checks of two
    requests are both answered before either marker is written, both
    requests go on; the second insert meets a duplicate key, which
    [markEventProcessed] ignores. *)
Remark deliveries_outside_the_hypotheses :
  count_effects is_order_creation
    (trace (run_deliveries sample_sdk (Some "whsec_1")
              [(sample_request, insert_fails_env); (sample_request, second_env)]
              (new_World (Some ∅)))) = 2%nat ∧
  count_effects is_order_creation
    (trace (interleaved_deliveries sample_sdk sample_event sample_env
              second_env (new_World (Some ∅)))) = 2%nat.
Proof. by vm_compute. Qed.

(** ** Payment-method labels *)

(** The handler's label is "Unknown" whenever the session leads to no
    payment-method detail: no payment intent, an intent without a charge,
    or a charge without details. *)
Lemma fetchPaymentMethodType_unknown sdk session w :
  (truthy_str (payment_intent session) = None ∨
   ∃ pi intent, truthy_str (payment_intent session) = Some pi ∧
     paymentIntents_retrieve sdk pi = Some intent ∧
     (charge ← latest_charge intent; payment_method_details charge) = None) →
  (fetchPaymentMethodType sdk session w).1 = Ok "Unknown".
Proof.
  unfold fetchPaymentMethodType.
  intros [->|(pi & intent & -> & Hr & Hd)]; [done|].
  cbn. rewrite Hr. cbn. by rewrite Hd.
Qed.



(** ** Duplicates *)

(** An identifier found in the store that the check reads (the table when
    a database is configured, the in-memory set otherwise) is
    acknowledged, and nothing else happens: no order or donation is
    created, no mail is sent, no provider call is made. *)
Lemma read_ledger_duplicate sdk secret req event stripe schemas sid env w :
  env_dbSelectFails env = false →
  (verified sdk secret req event → ledger_has (event_id event) w →
   handleStripeWebhook (Some sdk) secret req env w =
     (ack_duplicate,
      add_trace [EffLedgerCheck (event_id event) true;
                 EffLog ("Event " +:+ event_id event +:+
                         " already processed, skipping")] w)) ∧
  (sid ≠ "" → ledger_has ("donation_" +:+ sid) w →
   donationSuccess stripe schemas (Some sid) env w =
     (redirect "/?donation_success=true",
      add_trace [EffLedgerCheck ("donation_" +:+ sid) true] w)).
Proof.
  intros Hsel. split.
  - intros Hv Hp%isEventProcessed_ledger.
    rewrite (handleStripeWebhook_verified _ _ _ _ _ _ Hv).
    unfold deliver. by rewrite Hsel, Hp.
  - intros Hsid Hp%isEventProcessed_ledger. unfold donationSuccess.
    cbn [truthy_str]. rewrite decide_False by done.
    mrun. by rewrite Hsel, Hp.
Qed.

(** C3 does not hold of the code: an identifier that [markEventProcessed]
    has recorded is not always found by [isEventProcessed].  When the
    database refuses the insert, the identifier is recorded in the
    in-memory set, "falling back to in-memory"; but the check reads that
    set only when there is no database or the query fails.  So, with a
    database that answers queries, the event [evt_1] recorded by a first
    delivery is processed again by the second one: it is answered
    [{received: true}] without the duplicate message and a second order is
    created.  Likewise the session [cs_don_1], recorded by a first visit
    of the donation redirect, leads to a second donation. *)
Theorem C3_recorded_event_is_processed_again :
  (let w1 := webhook_after_refused_insert in
   let '(r, w2) :=
     handleStripeWebhook (Some sample_sdk) (Some "whsec_1") sample_request
       second_env w1 in
   processedEvents_has "evt_1" (storage w1) = true ∧
   isEventProcessed (db w1) false "evt_1" (storage w1) = false ∧
   count_effects is_order_creation (trace w1) = 1%nat ∧
   r = json 200 {[ "received" := JBool true ]} ∧
   count_effects is_order_creation (trace w2) = 2%nat ∧
   length (orders (storage w2)) = 2%nat) ∧
  (let w1 := donation_after_refused_insert in
   let '(r, w2) :=
     donationSuccess (Some donation_sdk) accept_all (Some "cs_don_1")
       second_env w1 in
   processedEvents_has "donation_cs_don_1" (storage w1) = true ∧
   isEventProcessed (db w1) false "donation_cs_don_1" (storage w1) = false ∧
   count_effects is_donation_creation (trace w1) = 1%nat ∧
   r = redirect "/?donation_success=true" ∧
   count_effects is_donation_creation (trace w2) = 2%nat ∧
   length (donations (storage w2)) = 2%nat).
Proof. by vm_compute. Qed.

(** ** Notification failures *)

Lemma mail_run_fails env os :
  (∃ o, o ∈ os ∧ env_mailFails env (mail_of o) = true) →
  ∃ m, (mail_run env os).2 = Some m ∧
       EffLog "Failed to send email:" ∈ (mail_run env os).1.
Proof.
  induction os as [|o os IH]; intros (o' & Hin & Hf).
  { by apply elem_of_nil in Hin. }
  cbn. destruct (env_mailFails env (mail_of o)) eqn:Ho.
  { exists (mail_of o). split; [done|]. unfold failed_effects. set_solver. }
  apply elem_of_cons in Hin as [->|Hin]; [congruence|].
  destruct IH as (m & Hm & Hlog); [by exists o'|].
  destruct (mail_run env os) as [l r]. cbn [fst snd] in *.
  exists m. split; [done|]. rewrite !elem_of_cons. by right; right.
Qed.

Lemma mail_run_ok env os :
  (mail_run env os).2 = None ↔
  Forall (λ o, env_mailFails env (mail_of o) = false) os.
Proof.
  induction os as [|o os IH]; cbn; [split; [intros _; constructor | done]|].
  destruct (env_mailFails env (mail_of o)) eqn:Ho.
  - split; [done|]. intros [H _]%Forall_cons. congruence.
  - destruct (mail_run env os) as [l r]. cbn in *. rewrite IH.
    split; [by constructor | by intros [_ H]%Forall_cons].
Qed.

Lemma mail_outcome_ok env os :
  Forall (λ o, env_mailFails env (mail_of o) = false) os →
  mail_outcome env os = Ok tt.
Proof. intros H%mail_run_ok. unfold mail_outcome. by rewrite H. Qed.

Lemma mail_outcome_fails env os :
  (∃ o, o ∈ os ∧ env_mailFails env (mail_of o) = true) →
  ∃ m, mail_outcome env os = Throw (MailError m).
Proof.
  intros H. destruct (mail_run_fails env os H) as (m & Hm & _).
  exists m. unfold mail_outcome. by rewrite Hm.
Qed.

(** What the handlers can tell about a send is whether it threw. *)
Lemma not_thrown env m : env_send env m ≠ Thrown ↔ env_mailFails env m = false.
Proof. unfold env_mailFails. by destruct (env_send env m). Qed.

Lemma thrown env m : env_send env m = Thrown ↔ env_mailFails env m = true.
Proof. unfold env_mailFails. by destruct (env_send env m). Qed.

Lemma none_thrown env os :
  Forall (λ o, env_send env (mail_of o) ≠ Thrown) os →
  Forall (λ o, env_mailFails env (mail_of o) = false) os.
Proof.
  intros H. eapply Forall_impl; [exact H|]. intros o. apply not_thrown.
Qed.

Lemma some_thrown env (os : list EmailOptions) :
  (∃ o, o ∈ os ∧ env_send env (mail_of o) = Thrown) →
  ∃ o, o ∈ os ∧ env_mailFails env (mail_of o) = true.
Proof. intros (o & Hin & H%thrown). by exists o. Qed.






(** ** Ledger record and side effects *)





(** * Further properties of the code *)

(** ** The ledger ([isEventProcessed], [markEventProcessed]) *)

Lemma set_processedEvents_id st :
  set_processedEvents (processedEvents st) st = st.
Proof. by destruct st. Qed.

(** X1. When the ledger's store does not fail, an identifier that has been
    marked is reported as processed, with or without a database, and the
    answer for every other identifier is what it was. *)
Theorem X1_mark_then_check db st e e' :
  let marked := markEventProcessed db false e st in
  isEventProcessed marked.1 false e marked.2 = true ∧
  (e' ≠ e →
   isEventProcessed marked.1 false e' marked.2 = isEventProcessed db false e' st).
Proof.
  unfold markEventProcessed, isEventProcessed, db_insert, db_select,
    processedEvents_has, processedEvents_add.
  destruct db as [t|]; cbn.
  - destruct (decide (e ∈ t)) as [Hin|Hout]; cbn.
    + rewrite decide_True by done. split; [done|]. done.
    + rewrite decide_True by set_solver. split; [done|]. intros Hne.
      destruct (decide (e' ∈ t)).
      * by rewrite decide_True by set_solver.
      * by rewrite decide_False by set_solver.
  - split.
    + apply bool_decide_eq_true. set_solver.
    + intros Hne. apply bool_decide_ext. set_solver.
Qed.

(** X2. Marking never removes a ledger record and touches nothing but the
    ledger, whatever the database does; and when the store does not fail,
    marking an identifier a second time changes nothing. *)
Theorem X2_mark_is_monotone_and_idempotent db fails st e :
  let marked := markEventProcessed db fails e st in
  processedEvents st ⊆ processedEvents marked.2 ∧
  match db, marked.1 with
  | Some t, Some t' => t ⊆ t'
  | None, None => True
  | _, _ => False
  end ∧
  set_processedEvents (processedEvents st) marked.2 = st ∧
  (fails = false → markEventProcessed marked.1 false e marked.2 = marked).
Proof.
  unfold markEventProcessed, db_insert, processedEvents_add.
  destruct db as [t|]; cbn.
  - destruct fails; cbn.
    { split; [set_solver|]. split; [done|]. split; [by destruct st|]. done. }
    destruct (decide (e ∈ t)) as [Hin|Hout]; cbn.
    + split; [done|]. split; [done|]. split; [by destruct st|].
      intros _. by rewrite decide_True.
    + split; [set_solver|]. split; [set_solver|]. split; [by destruct st|].
      intros _. by rewrite decide_True by set_solver.
  - split; [set_solver|]. split; [done|]. split; [by destruct st|].
    intros _. destruct st. unfold set_processedEvents. cbn.
    do 2 f_equal. set_solver.
Qed.

(** X3. The in-memory fallback is not read while the database answers:
    when the database refuses the insert of an identifier it does not hold
    (for a reason other than a duplicate key), the identifier lands in the
    in-memory set only; a later check finds it if the database query
    fails, and does not find it if the query succeeds. *)
Theorem X3_refused_insert_is_remembered_in_memory_only t st e :
  e ∉ t →
  let marked := markEventProcessed (Some t) true e st in
  marked.1 = Some t ∧
  e ∈ processedEvents marked.2 ∧
  isEventProcessed marked.1 true e marked.2 = true ∧
  isEventProcessed marked.1 false e marked.2 = false.
Proof.
  intros Hout. unfold markEventProcessed, isEventProcessed, db_insert, db_select,
    processedEvents_has, processedEvents_add. cbn.
  split; [done|]. split; [set_solver|]. split.
  - apply bool_decide_eq_true. set_solver.
  - by rewrite decide_False.
Qed.

Lemma X3_witness :
  isEventProcessed
    (markEventProcessed (Some ∅) true "evt_1" new_MemStorage).1 false "evt_1"
    (markEventProcessed (Some ∅) true "evt_1" new_MemStorage).2 = false.
Proof.
  apply (X3_refused_insert_is_remembered_in_memory_only ∅ new_MemStorage "evt_1").
  set_solver.
Defined.

Lemma X2_witness :
  markEventProcessed
    (markEventProcessed (Some ∅) false "evt_1" new_MemStorage).1 false "evt_1"
    (markEventProcessed (Some ∅) false "evt_1" new_MemStorage).2
  = markEventProcessed (Some ∅) false "evt_1" new_MemStorage.
Proof.
  apply (X2_mark_is_monotone_and_idempotent (Some ∅) false new_MemStorage "evt_1").
  reflexivity.
Defined.

(** ** Orders *)

(** X4. [createOrder] returns the order it stores: [getOrder] finds it
    under its id and finds every other id as before.  The order has the
    id drawn, no rating, the creation time, and every other field of the
    insert data unchanged; cart, donations and ledger are untouched. *)
Theorem X4_createOrder_stores_what_it_returns ins id now st id' f :
  let o := (createOrder ins id now st).1 in
  let st' := (createOrder ins id now st).2 in
  getOrder id' st' = (if decide (id = id') then Some o else getOrder id' st) ∧
  o !! "id" = Some (JStr id) ∧
  o !! "rating" = Some JNull ∧
  o !! "createdAt" = Some (JDate now) ∧
  (f ∉ order_own_fields → o !! f = ins !! f) ∧
  cartItems st' = cartItems st ∧ donations st' = donations st ∧
  customOrders st' = customOrders st ∧
  processedEvents st' = processedEvents st.
Proof.
  intros o st'. split.
  { subst o st'. rewrite createOrder_eq. cbn. unfold getOrder. cbn.
    apply map_get_set. }
  split; [subst o; rewrite createOrder_eq; cbn; by simplify_map_eq|].
  split; [subst o; rewrite createOrder_eq; cbn; by simplify_map_eq|].
  split; [subst o; rewrite createOrder_eq; cbn; by simplify_map_eq|].
  split; [apply createOrder_fields|]. done.
Qed.

Lemma X4_witness :
  (createOrder {[ "amount" := JStr "5"; "rating" := JStr "4" ]} "o-1" 7
     new_MemStorage).1 !! "amount" = Some (JStr "5").
Proof.
  destruct (X4_createOrder_stores_what_it_returns
              {[ "amount" := JStr "5"; "rating" := JStr "4" ]} "o-1" 7
              new_MemStorage "o-1" "amount") as (_ & _ & _ & _ & H & _).
  rewrite H; [by vm_compute|]. unfold order_own_fields.
  intros Hin. repeat (apply elem_of_cons in Hin as [Hin|Hin]; [discriminate Hin|]).
  by apply elem_of_nil in Hin.
Defined.

(** *** Listings *)

Section SortFacts.
Context (key : JsObject → Z).

Lemma insert_desc_perm x l : insert_desc key x l ≡ₚ x :: l.
Proof.
  induction l as [|y l IH]; cbn; [done|].
  destruct (key y <=? key x); [done|].
  rewrite IH. apply Permutation_swap.
Qed.

Lemma sort_desc_perm l : sort_desc key l ≡ₚ l.
Proof.
  induction l as [|x l IH]; cbn; [done|].
  by rewrite insert_desc_perm, IH.
Qed.

Lemma insert_desc_sorted x l :
  StronglySorted (λ a b, key b ≤ key a) l →
  StronglySorted (λ a b, key b ≤ key a) (insert_desc key x l).
Proof.
  induction 1 as [|y l Hs IH Hall]; cbn.
  { repeat constructor. }
  destruct (key y <=? key x) eqn:Hle.
  - apply Z.leb_le in Hle. constructor; [by constructor|].
    constructor; [done|]. eapply Forall_impl; [exact Hall|]. cbn. lia.
  - apply Z.leb_gt in Hle. constructor; [done|].
    rewrite insert_desc_perm. constructor; [lia | done].
Qed.

Lemma sort_desc_sorted l :
  StronglySorted (λ a b, key b ≤ key a) (sort_desc key l).
Proof.
  induction l as [|x l IH]; cbn; [constructor|]. by apply insert_desc_sorted.
Qed.

(** The sort is stable: elements of one key keep their order. *)
Lemma insert_desc_filter k x l :
  filter (λ o, key o = k) (insert_desc key x l) =
  filter (λ o, key o = k) (x :: l).
Proof.
  induction l as [|y l IH]; cbn; [done|].
  destruct (key y <=? key x) eqn:Hle; [done|]. apply Z.leb_gt in Hle.
  rewrite !filter_cons in *.
  destruct (decide (key y = k)) as [Hy|Hy], (decide (key x = k)) as [Hx|Hx];
    try lia; by rewrite IH.
Qed.

Lemma sort_desc_filter k l :
  filter (λ o, key o = k) (sort_desc key l) = filter (λ o, key o = k) l.
Proof.
  induction l as [|x l IH]; cbn; [done|].
  rewrite insert_desc_filter, !filter_cons, IH. done.
Qed.

End SortFacts.

(** X5. The listings of orders, cart items, custom orders and contact
    submissions hold exactly the stored records, newest first; records
    created at the same instant keep the order in which they were
    inserted. *)
Theorem X5_listings_newest_first st t :
  (getOrders st ≡ₚ map_values (orders st) ∧ newest_first (getOrders st) ∧
   filter (λ o, createdAt_ms o = t) (getOrders st) =
   filter (λ o, createdAt_ms o = t) (map_values (orders st))) ∧
  (getCartItems st ≡ₚ map_values (cartItems st) ∧
   newest_first (getCartItems st) ∧
   filter (λ o, createdAt_ms o = t) (getCartItems st) =
   filter (λ o, createdAt_ms o = t) (map_values (cartItems st))) ∧
  (getCustomOrders st ≡ₚ map_values (customOrders st) ∧
   newest_first (getCustomOrders st)) ∧
  (getContactSubmissions st ≡ₚ map_values (contactSubmissions st) ∧
   newest_first (getContactSubmissions st)).
Proof.
  unfold getOrders, getCartItems, getCustomOrders, getContactSubmissions,
    newest_first.
  repeat split;
    (apply sort_desc_perm || apply sort_desc_sorted || apply sort_desc_filter).
Qed.

(** *** Rating updates in the store *)

Lemma map_set_set {V} k (v1 v2 : V) m :
  map_set k v2 (map_set k v1 m) = map_set k v2 m.
Proof.
  induction m as [|[k' v'] m IH]; cbn.
  - by rewrite decide_True.
  - destruct (decide (k' = k)) as [->|Hne]; cbn.
    + by rewrite decide_True.
    + rewrite decide_False by done. by rewrite IH.
Qed.

Lemma map_set_length {V} k (v : V) m :
  is_Some (map_get k m) → length (map_set k v m) = length m.
Proof.
  induction m as [|[k' v'] m IH]; cbn; intros [x Hx]; [done|].
  destruct (decide (k' = k)); cbn; [done|]. rewrite IH; [done | by exists x].
Qed.

(** X6. [updateOrderRating] in the store: for an unknown id it returns
    nothing and leaves the store as it is; for a stored order it returns
    that order with the rating replaced by the number's string (any safe
    integer: the store checks no range) and all other fields unchanged,
    stores it under the same id without adding an order or moving the
    counter, and leaves the other orders alone.  A later update overwrites
    an earlier one. *)
Theorem X6_updateOrderRating_in_store id r r' st id' f :
  safe_integer r → safe_integer r' →
  (getOrder id st = None → updateOrderRating id r st = (None, st)) ∧
  (∀ o, getOrder id st = Some o →
     let o' : JsObject := <["rating" := JStr (num_toString r)]> o in
     let st' := (updateOrderRating id r st).2 in
     (updateOrderRating id r st).1 = Some o' ∧
     (f ≠ "rating" → o' !! f = o !! f) ∧
     getOrder id' st' = (if decide (id = id') then Some o' else getOrder id' st) ∧
     length (orders st') = length (orders st) ∧
     orderCounter st' = orderCounter st ∧
     updateOrderRating id r' st' = updateOrderRating id r' st).
Proof.
  intros _ _. unfold updateOrderRating, getOrder. split.
  - by intros ->.
  - intros o Hget. rewrite Hget. cbn.
    split; [done|]. split; [intros Hf; by rewrite lookup_insert_ne|].
    split; [apply map_get_set|].
    split; [apply map_set_length; by rewrite Hget|]. split; [done|].
    rewrite map_get_set_eq. rewrite insert_insert_eq.
    unfold set_orders. cbn. by rewrite map_set_set.
Qed.

Lemma X6_witness :
  (updateOrderRating "o-1" 0 (storage sample_order_world)).1 ≠ None ∧
  updateOrderRating "o-9" 3 (storage sample_order_world)
  = (None, storage sample_order_world).
Proof.
  destruct (X6_updateOrderRating_in_store "o-1" 0 1 (storage sample_order_world)
              "o-1" "id") as [_ H1]; [by vm_compute..|].
  destruct (X6_updateOrderRating_in_store "o-9" 3 1 (storage sample_order_world)
              "o-1" "id") as [H2 _]; [by vm_compute..|].
  split.
  - destruct (getOrder "o-1" (storage sample_order_world)) as [o|] eqn:Ho;
      [|by vm_compute in Ho].
    destruct (H1 o eq_refl) as [-> _]. discriminate.
  - apply H2. by vm_compute.
Defined.

(** *** Orders created in sequence *)

Lemma createOrders_spec reqs : ∀ st,
  0 ≤ orderCounter st →
  orderCounter st + Z.of_nat (length reqs) ≤ MAX_EXACT →
  orderCounter (createOrders reqs st).2
    = orderCounter st + Z.of_nat (length reqs) ∧
  (λ o : JsObject, o !! "orderNumber") <$> (createOrders reqs st).1 =
  (λ i, Some (JStr (ORD (orderCounter st + 1 + i)))) <$>
    seqZ 0 (Z.of_nat (length reqs)).
Proof.
  induction reqs as [|[[ins id] now] reqs IH]; intros st H0 Hmax.
  { cbn. split; [lia | done]. }
  cbn [createOrders length] in *.
  assert (Hlt : orderCounter st < MAX_EXACT) by lia.
  pose proof (createOrder_eq ins id now st) as Hc.
  rewrite (js_incr_lt _ Hlt) in Hc. cbv zeta in Hc.
  destruct (createOrder ins id now st) as [o st1]. injection Hc as -> ->.
  specialize (IH (set_orders (map_set id
     (<["createdAt":=JDate now]> (<["rating":=JNull]>
        (<["orderNumber":=JStr (ORD (orderCounter st + 1))]>
           (<["id":=JStr id]> ins)))) (orders st))
     (set_orderCounter (orderCounter st + 1) st))).
  cbn [orderCounter set_orders set_orderCounter] in IH.
  destruct IH as [IHc IHn]; [lia | lia |].
  destruct (createOrders reqs _) as [os st2]. cbn [fst snd] in *.
  split; [lia|].
  rewrite Nat2Z.inj_succ, <-Z.add_1_l.
  rewrite seqZ_cons by lia. rewrite !fmap_cons. f_equal.
  - rewrite Z.add_0_r. by simplify_map_eq.
  - rewrite IHn. replace (Z.pred (1 + Z.of_nat (length reqs)))
      with (Z.of_nat (length reqs)) by lia.
    change (Z.succ 0) with (1 + 0). rewrite <-(fmap_add_seqZ 1 0).
    rewrite <-list_fmap_compose. apply list_fmap_ext. intros _ i _. cbn.
    do 3 f_equal. lia.
Qed.

(** X7. Orders created one after the other get consecutive numbers: from
    a counter [c], the [n] orders of a run carry [ORD-(c+1)] up to
    [ORD-(c+n)] in the order of creation, so no two of them share a
    number, as long as the counter stays within [2^53]. *)
Theorem X7_consecutive_order_numbers reqs st :
  0 ≤ orderCounter st →
  orderCounter st + Z.of_nat (length reqs) ≤ MAX_EXACT →
  (λ o : JsObject, o !! "orderNumber") <$> (createOrders reqs st).1 =
    (λ i, Some (JStr (ORD (orderCounter st + 1 + i)))) <$>
      seqZ 0 (Z.of_nat (length reqs)) ∧
  NoDup ((λ o : JsObject, o !! "orderNumber") <$> (createOrders reqs st).1) ∧
  orderCounter (createOrders reqs st).2
    = orderCounter st + Z.of_nat (length reqs).
Proof.
  intros H0 Hmax.
  destruct (createOrders_spec reqs st H0 Hmax) as [Hc Hn].
  split; [done|]. split; [|done].
  rewrite Hn. apply NoDup_fmap_2; [|apply NoDup_seqZ].
  intros i j Hij.
  assert (ORD (orderCounter st + 1 + i) = ORD (orderCounter st + 1 + j))
    as Hk%ORD_inj by congruence.
  lia.
Qed.

Lemma X7_witness :
  (λ o : JsObject, o !! "orderNumber") <$>
    (createOrders [(∅, "a", 1); (∅, "b", 2); (∅, "a", 3)] new_MemStorage).1
  = [Some (JStr "ORD-1001"); Some (JStr "ORD-1002"); Some (JStr "ORD-1003")].
Proof.
  destruct (X7_consecutive_order_numbers
              [(∅, "a", 1); (∅, "b", 2); (∅, "a", 3)] new_MemStorage)
    as (H & _ & _); [by vm_compute | by vm_compute |].
  rewrite H. by vm_compute.
Defined.

(** ** The cart *)

Lemma map_delete_absent {V} k (m : JsMap V) :
  map_get k m = None → map_delete k m = (false, m).
Proof.
  intros Hget. unfold map_delete, map_has. rewrite Hget. f_equal.
  induction m as [|[k' v'] m IH]; [done|]. cbn in Hget.
  destruct (decide (k' = k)) as [->|Hne]; [done|].
  rewrite filter_cons_True by done. by rewrite IH.
Qed.

Lemma map_delete_get_ne {V} k k' (m : JsMap V) :
  k ≠ k' → map_get k' (map_delete k m).2 = map_get k' m.
Proof.
  intros Hne. unfold map_delete. cbn [snd].
  induction m as [|[k0 v0] m IH]; [done|].
  rewrite filter_cons. cbn.
  destruct (decide (k0 ≠ k)) as [H0|H0]; cbn.
  - destruct (decide (k0 = k')); [done | apply IH].
  - apply dec_stable in H0 as ->. by rewrite decide_False.
Qed.

Lemma removeCartItem_absent id st :
  getCartItem id st = None → removeCartItem id st = (false, st).
Proof.
  unfold removeCartItem, getCartItem. intros Hget.
  rewrite (map_delete_absent _ _ Hget). by destruct st.
Qed.

(** X8. [removeCartItem] answers whether the item was in the cart.  An
    unknown id leaves the store exactly as it was; a known id is gone
    afterwards, while every other item is found as before and orders and
    ledger are untouched. *)
Theorem X8_removeCartItem id id' st :
  let removed := removeCartItem id st in
  (removed.1 = true ↔ is_Some (getCartItem id st)) ∧
  (getCartItem id st = None → removed = (false, st)) ∧
  getCartItem id removed.2 = None ∧
  (id ≠ id' → getCartItem id' removed.2 = getCartItem id' st) ∧
  orders removed.2 = orders st ∧
  processedEvents removed.2 = processedEvents st.
Proof.
  unfold removeCartItem, getCartItem. cbn.
  split; [|split; [|split; [|split]]].
  - unfold map_has. destruct (map_get id (cartItems st)).
    + split; [by eexists | done].
    + split; [done | by intros [? ?]].
  - apply removeCartItem_absent.
  - apply (map_delete_get id (cartItems st)).
  - intros Hne. by apply (map_delete_get_ne id id' (cartItems st)).
  - done.
Qed.

Lemma X8_witness :
  (removeCartItem "c-9" new_MemStorage) = (false, new_MemStorage).
Proof.
  apply (X8_removeCartItem "c-9" "c-9" new_MemStorage). reflexivity.
Defined.

(** X9. Error answers of the cart routes.  [PATCH /api/cart/:id] answers
    400 when the quantity is not a number or is below 1, and 404 when it
    is valid but the id is unknown; [DELETE /api/cart/:id] answers 404 for
    an unknown id.  In all these cases the world is left as it was. *)
Theorem X9_cart_route_errors id (body : JsObject) w :
  ((∀ q, field body "quantity" = JNum q → q < 1) →
   patchCart id body w = (json 400 {[ "error" := JStr "Invalid quantity" ]}, w)) ∧
  (∀ q, field body "quantity" = JNum q → 1 ≤ q →
   getCartItem id (storage w) = None →
   patchCart id body w =
     (json 404 {[ "error" := JStr "Cart item not found" ]}, w)) ∧
  (getCartItem id (storage w) = None →
   deleteCartItem id w =
     (json 404 {[ "error" := JStr "Cart item not found" ]}, w)).
Proof.
  split; [|split].
  - intros Hq. unfold patchCart.
    destruct (field body "quantity") as [| |b|q|s|t|l] eqn:Hf;
      try (mrun; by destruct w).
    rewrite (proj2 (Z.ltb_lt q 1)) by (by apply Hq). mrun. by destruct w.
  - intros q Hf Hq Hget. rewrite (patchCart_spec _ _ q _ Hf Hq).
    unfold updateCartItemQuantity. unfold getCartItem in Hget. rewrite Hget.
    by destruct w.
  - intros Hget. rewrite deleteCartItem_spec.
    rewrite (removeCartItem_absent _ _ Hget).
    unfold getCartItem in Hget. unfold map_has. rewrite Hget. by destruct w.
Qed.

Lemma X9_witness :
  patchCart "c-1" {[ "quantity" := JStr "3" ]} (new_World None) =
    (json 400 {[ "error" := JStr "Invalid quantity" ]}, new_World None) ∧
  deleteCartItem "c-1" (new_World None) =
    (json 404 {[ "error" := JStr "Cart item not found" ]}, new_World None).
Proof.
  destruct (X9_cart_route_errors "c-1" {[ "quantity" := JStr "3" ]}
              (new_World None)) as (H1 & _ & H3).
  split.
  - apply H1. intros q Hq. by vm_compute in Hq.
  - apply H3. reflexivity.
Defined.

(** ** Custom orders *)

(** X10. [createCustomOrder] stores the record it returns under the id
    drawn, always with status "pending" (a status of the caller's is
    overwritten); payment method and image references are [null] when the
    insert data has none and are kept when it has; no order number is
    issued and the orders are untouched. *)
Theorem X10_createCustomOrder ins id now st id' f v :
  let co := (createCustomOrder ins id now st).1 in
  let st' := (createCustomOrder ins id now st).2 in
  co !! "status" = Some (JStr "pending") ∧
  getCustomOrder id' st' =
    (if decide (id = id') then Some co else getCustomOrder id' st) ∧
  (f = "paymentMethod" ∨ f = "imageUrls" →
   (ins !! f = None ∨ ins !! f = Some JNull ∨ ins !! f = Some JUndefined →
    co !! f = Some JNull) ∧
   (ins !! f = Some v → v ≠ JNull → v ≠ JUndefined → co !! f = Some v)) ∧
  orderCounter st' = orderCounter st ∧ orders st' = orders st.
Proof.
  intros co st'. subst co st'. unfold createCustomOrder, getCustomOrder. cbn.
  split; [by simplify_map_eq|]. split; [apply map_get_set|].
  split; [|done].
  intros [->| ->]; (split; [intros Hn| intros Hv Hn Hu]); simplify_map_eq;
    unfold field;
    try (destruct Hn as [->|[->| ->]]; done);
    rewrite Hv; cbn; by destruct v.
Qed.

Lemma X10_witness :
  let ins : JsObject :=
    {[ "category" := JStr "Web"; "status" := JStr "done";
       "paymentMethod" := JStr "paypal" ]} in
  let co := (createCustomOrder ins "co-1" 0 new_MemStorage).1 in
  co !! "imageUrls" = Some JNull ∧ co !! "paymentMethod" = Some (JStr "paypal").
Proof.
  intros ins co. subst co.
  destruct (X10_createCustomOrder ins "co-1" 0 new_MemStorage "co-1"
              "imageUrls" JNull) as (_ & _ & H1 & _).
  destruct (X10_createCustomOrder ins "co-1" 0 new_MemStorage "co-1"
              "paymentMethod" (JStr "paypal")) as (_ & _ & H2 & _).
  destruct H1 as [H1 _]; [by right|].
  destruct H2 as [_ H2]; [by left|].
  split.
  - apply H1. left. by vm_compute.
  - apply H2; [by vm_compute | done | done].
Defined.

(** ** Notifications of the form routes *)

Lemma sendCustomOrderNotification_spec n e c d p env w :
  sendCustomOrderNotification n e c d p env w =
  (mail_outcome env (custom_order_mails n e c d p),
   add_trace (mail_run env (custom_order_mails n e c d p)).1 w).
Proof.
  unfold sendCustomOrderNotification, custom_order_mails, mail_outcome, mail_run.
  cbv [mbind M_bind]. rewrite !sendEmail_spec.
  destruct (env_mailFails env (mail_of (customOrderBusinessMail n e c d p
              "allouzimohammed53@gmail.com"))); [done|].
  rewrite sendEmail_spec.
  destruct (env_mailFails env (mail_of (customOrderBusinessMail n e c d p
              "custom@driftv8.xyz"))); [by rewrite add_trace_add_trace|].
  rewrite sendEmail_spec.
  destruct (env_mailFails env (mail_of (customOrderCustomerMail n e c d p)));
    cbn [fst snd]; by rewrite !add_trace_add_trace, ?app_nil_r, ?app_assoc.
Qed.

Lemma sendContactNotification_spec n e s m env w :
  sendContactNotification n e s m env w =
  (mail_outcome env (contact_mails n e s m),
   add_trace (mail_run env (contact_mails n e s m)).1 w).
Proof.
  unfold sendContactNotification, contact_mails, mail_outcome, mail_run.
  cbv [mbind M_bind]. rewrite !sendEmail_spec.
  match goal with |- context [env_mailFails env ?m] =>
    destruct (env_mailFails env m) end; [done|].
  rewrite sendEmail_spec.
  match goal with |- context [env_mailFails env ?m] =>
    destruct (env_mailFails env m) end;
    cbn [fst snd]; by rewrite !add_trace_add_trace, ?app_nil_r, ?app_assoc.
Qed.

(** A run of mails ends without a failure exactly when no mail fails. *)
(** ** [POST /api/orders] *)

Lemma postOrder_accepted schemas body data env w :
  insertOrderSchema schemas body = Some data →
  let created := createOrder data (env_uuid env) (env_now env) (storage w) in
  let mails := posted_order_mails data created.1 in
  postOrder schemas body env w =
  match mail_outcome env mails with
  | Ok _ =>
      (json 201 created.1,
       {| storage := created.2; db := db w;
          trace := trace w ++ [EffCreateOrder created.1] ++
                   (mail_run env mails).1 |})
  | Throw _ =>
      (json 400 {[ "error" := JStr "Invalid order data" ]},
       {| storage := created.2; db := db w;
          trace := trace w ++ [EffCreateOrder created.1] ++
                   (mail_run env mails).1 ++ [EffLog "Error creating order:"] |})
  end.
Proof.
  intros Hs created mails. unfold postOrder. rewrite Hs. mrun.
  subst mails created.
  destruct (createOrder data (env_uuid env) (env_now env) (storage w))
    as [order st'] eqn:Hc.
  mrun. rewrite sendOrderConfirmation_spec.
  fold (posted_order_mails data order). unfold mail_outcome.
  destruct (mail_run env (posted_order_mails data order)) as [ml [m|]];
    cbn [fst snd]; unfold add_trace; cbn [storage db trace];
    by rewrite <-?app_assoc.
Qed.

(** X11. [POST /api/orders].  A body the schema rejects is answered with
    400 and nothing is created.  For accepted data (its fields strings,
    as the schema's type says) the order is created and stored first;
    when none of the three sends throws the answer is 201 with the order,
    which [GET /api/orders/:id] then returns: a message that the mail
    service refuses makes no difference.  When a send throws the answer
    is 400 "Invalid order data", yet the order stays in the store. *)
Theorem X11_postOrder schemas body env w :
  (insertOrderSchema schemas body = None →
   postOrder schemas body env w =
     (json 400 {[ "error" := JStr "Invalid order data" ]},
      add_trace [EffLog "Error creating order:"] w)) ∧
  (∀ data, insertOrderSchema schemas body = Some data →
   string_fields data ["customerName"; "customerEmail"; "amount";
                       "paymentMethod"; "description"] = true →
   let created := createOrder data (env_uuid env) (env_now env) (storage w) in
   let r := (postOrder schemas body env w).1 in
   let w' := (postOrder schemas body env w).2 in
   storage w' = created.2 ∧
   getOrder (env_uuid env) (storage w') = Some created.1 ∧
   (Forall (λ o, env_send env (mail_of o) ≠ Thrown)
      (posted_order_mails data created.1) →
    r = json 201 created.1 ∧
    getOrderRoute (env_uuid env) w' = (json 200 created.1, w')) ∧
   ((∃ o, o ∈ posted_order_mails data created.1 ∧
          env_send env (mail_of o) = Thrown) →
    r = json 400 {[ "error" := JStr "Invalid order data" ]})).
Proof.
  split.
  { intros Hs. unfold postOrder. rewrite Hs. by mrun. }
  intros data Hs _ created r w'. subst r w'.
  rewrite (postOrder_accepted _ _ _ _ _ Hs). fold created.
  assert (Hget : getOrder (env_uuid env) created.2 = Some created.1).
  { subst created. rewrite createOrder_eq. cbn. apply map_get_set_eq. }
  split; [by destruct (mail_outcome env _)|].
  split; [by destruct (mail_outcome env _)|].
  split.
  - intros Hok%none_thrown. rewrite (mail_outcome_ok _ _ Hok). cbn [fst snd].
    split; [done|]. unfold getOrderRoute. mrun. by rewrite Hget.
  - intros Hf%some_thrown. destruct (mail_outcome_fails _ _ Hf) as [m ->]. done.
Qed.

Lemma X11_witness :
  (postOrder accept_all_forms sample_order_data mail_down_env (new_World None)).1
  = json 400 {[ "error" := JStr "Invalid order data" ]} ∧
  (postOrder accept_all_forms sample_order_data mail_refused_env
     (new_World None)).1.(status) = 201 ∧
  length (orders (storage
    (postOrder accept_all_forms sample_order_data mail_down_env
       (new_World None)).2)) = 1%nat.
Proof.
  destruct (X11_postOrder accept_all_forms sample_order_data mail_down_env
              (new_World None)) as [_ H].
  destruct (H sample_order_data eq_refl ltac:(by vm_compute))
    as (Hst & _ & _ & Hfail).
  destruct (X11_postOrder accept_all_forms sample_order_data mail_refused_env
              (new_World None)) as [_ H'].
  destruct (H' sample_order_data eq_refl ltac:(by vm_compute))
    as (_ & _ & Hok & _).
  split; [|split].
  - apply Hfail. eexists. split; [left | reflexivity].
  - destruct Hok as [-> _]; [by repeat constructor | reflexivity].
  - rewrite Hst. by vm_compute.
Defined.

(** ** [POST /api/custom-orders] and [POST /api/contact] *)

Lemma postCustomOrder_accepted schemas body data env w :
  insertCustomOrderSchema schemas body = Some data →
  let created :=
    createCustomOrder data (env_uuid env) (env_now env) (storage w) in
  let mails := posted_custom_order_mails data in
  postCustomOrder schemas body env w =
  match mail_outcome env mails with
  | Ok _ =>
      (json 201 created.1,
       {| storage := created.2; db := db w;
          trace := trace w ++ (mail_run env mails).1 |})
  | Throw _ =>
      (json 400 {[ "error" := JStr "Invalid custom order data" ]},
       {| storage := created.2; db := db w;
          trace := trace w ++ (mail_run env mails).1 ++
                   [EffLog "Error creating custom order:"] |})
  end.
Proof.
  intros Hs created mails. unfold postCustomOrder. rewrite Hs. mrun.
  subst mails created.
  destruct (createCustomOrder data (env_uuid env) (env_now env) (storage w))
    as [co st'] eqn:Hc.
  mrun. rewrite sendCustomOrderNotification_spec.
  fold (posted_custom_order_mails data).
  destruct (mail_outcome env (posted_custom_order_mails data));
    cbn [fst snd]; unfold add_trace; cbn [storage db trace];
    by rewrite <-?app_assoc.
Qed.

(** X12. [POST /api/custom-orders].  A body the schema rejects is answered
    with 400 and the store is unchanged.  For accepted data (the fields
    handed to the mail function being strings) the custom order is
    stored, with status "pending", before any mail is sent; when none of
    the three sends throws the answer is 201 with the record, which
    [GET /api/custom-orders/:id] then returns; when a send throws the
    answer is 400 "Invalid custom order data", yet the record stays in the
    store. *)
Theorem X12_postCustomOrder schemas body env w :
  (insertCustomOrderSchema schemas body = None →
   postCustomOrder schemas body env w =
     (json 400 {[ "error" := JStr "Invalid custom order data" ]},
      add_trace [EffLog "Error creating custom order:"] w)) ∧
  (∀ data, insertCustomOrderSchema schemas body = Some data →
   string_fields data ["customerName"; "customerEmail"; "category";
                       "description"; "estimatedPrice"] = true →
   let created :=
     createCustomOrder data (env_uuid env) (env_now env) (storage w) in
   let r := (postCustomOrder schemas body env w).1 in
   let w' := (postCustomOrder schemas body env w).2 in
   storage w' = created.2 ∧
   getCustomOrder (env_uuid env) (storage w') = Some created.1 ∧
   created.1 !! "status" = Some (JStr "pending") ∧
   (Forall (λ o, env_send env (mail_of o) ≠ Thrown)
      (posted_custom_order_mails data) →
    r = json 201 created.1 ∧
    getCustomOrderRoute (env_uuid env) w' = (json 200 created.1, w')) ∧
   ((∃ o, o ∈ posted_custom_order_mails data ∧
          env_send env (mail_of o) = Thrown) →
    r = json 400 {[ "error" := JStr "Invalid custom order data" ]})).
Proof.
  split.
  { intros Hs. unfold postCustomOrder. rewrite Hs. by mrun. }
  intros data Hs _ created r w'. subst r w'.
  rewrite (postCustomOrder_accepted _ _ _ _ _ Hs). fold created.
  assert (Hget : getCustomOrder (env_uuid env) created.2 = Some created.1).
  { subst created. unfold createCustomOrder, getCustomOrder. cbn.
    apply map_get_set_eq. }
  split; [by destruct (mail_outcome env _)|].
  split; [by destruct (mail_outcome env _)|].
  split; [subst created; unfold createCustomOrder; cbn; by simplify_map_eq|].
  split.
  - intros Hok%none_thrown. rewrite (mail_outcome_ok _ _ Hok). cbn [fst snd].
    split; [done|]. unfold getCustomOrderRoute. mrun. by rewrite Hget.
  - intros Hf%some_thrown. destruct (mail_outcome_fails _ _ Hf) as [m ->]. done.
Qed.

Lemma X12_witness :
  (postCustomOrder accept_all_forms sample_custom_order_data mail_down_env
     (new_World None)).1
  = json 400 {[ "error" := JStr "Invalid custom order data" ]} ∧
  (postCustomOrder accept_all_forms sample_custom_order_data mail_refused_env
     (new_World None)).1.(status) = 201.
Proof.
  destruct (X12_postCustomOrder accept_all_forms sample_custom_order_data
              mail_down_env (new_World None)) as [_ H].
  destruct (H sample_custom_order_data eq_refl ltac:(by vm_compute))
    as (_ & _ & _ & _ & Hfail).
  destruct (X12_postCustomOrder accept_all_forms sample_custom_order_data
              mail_refused_env (new_World None)) as [_ H'].
  destruct (H' sample_custom_order_data eq_refl ltac:(by vm_compute))
    as (_ & _ & _ & Hok & _).
  split.
  - apply Hfail. eexists. split; [left | reflexivity].
  - destruct Hok as [-> _]; [by repeat constructor | reflexivity].
Defined.

Lemma postContact_accepted schemas body data env w :
  insertContactSubmissionSchema schemas body = Some data →
  let created :=
    createContactSubmission data (env_uuid env) (env_now env) (storage w) in
  let mails := posted_contact_mails data in
  postContact schemas body env w =
  match mail_outcome env mails with
  | Ok _ =>
      (json 201 created.1,
       {| storage := created.2; db := db w;
          trace := trace w ++ (mail_run env mails).1 |})
  | Throw _ =>
      (json 400 {[ "error" := JStr "Invalid contact data" ]},
       {| storage := created.2; db := db w;
          trace := trace w ++ (mail_run env mails).1 ++
                   [EffLog "Error creating contact submission:"] |})
  end.
Proof.
  intros Hs created mails. unfold postContact. rewrite Hs. mrun.
  subst mails created.
  destruct (createContactSubmission data (env_uuid env) (env_now env)
              (storage w)) as [sub st'] eqn:Hc.
  mrun. rewrite sendContactNotification_spec.
  fold (posted_contact_mails data).
  destruct (mail_outcome env (posted_contact_mails data));
    cbn [fst snd]; unfold add_trace; cbn [storage db trace];
    by rewrite <-?app_assoc.
Qed.

(** X13. [POST /api/contact].  A body the schema rejects is answered with
    400 and the store is unchanged.  For accepted data (name, address,
    subject and message being strings) the submission is stored under the
    id drawn, with its creation time, and is part of the listing of
    submissions; the notification goes to contact@driftv8.xyz first and
    the confirmation to the sender second, so when the first send throws
    the sender is not mailed; the answer is 201 when neither send throws
    and 400 "Invalid contact data" when one does. *)
Theorem X13_postContact schemas body env w :
  (insertContactSubmissionSchema schemas body = None →
   postContact schemas body env w =
     (json 400 {[ "error" := JStr "Invalid contact data" ]},
      add_trace [EffLog "Error creating contact submission:"] w)) ∧
  (∀ data, insertContactSubmissionSchema schemas body = Some data →
   string_fields data ["name"; "email"; "subject"; "message"] = true →
   let created :=
     createContactSubmission data (env_uuid env) (env_now env) (storage w) in
   let r := (postContact schemas body env w).1 in
   let w' := (postContact schemas body env w).2 in
   storage w' = created.2 ∧
   created.1 = <["createdAt" := JDate (env_now env)]>
                 (<["id" := JStr (env_uuid env)]> data) ∧
   created.1 ∈ getContactSubmissions (storage w') ∧
   (Forall (λ o, env_send env (mail_of o) ≠ Thrown)
      (posted_contact_mails data) → r = json 201 created.1) ∧
   ((∃ o, o ∈ posted_contact_mails data ∧
          env_send env (mail_of o) = Thrown) →
    r = json 400 {[ "error" := JStr "Invalid contact data" ]}) ∧
   (∀ first rest, posted_contact_mails data = first :: rest →
    env_send env (mail_of first) = Thrown →
    to first = "contact@driftv8.xyz" ∧
    trace w' = trace w ++ failed_effects first ++
               [EffLog "Error creating contact submission:"])).
Proof.
  split.
  { intros Hs. unfold postContact. rewrite Hs. by mrun. }
  intros data Hs _ created r w'. subst r w'.
  rewrite (postContact_accepted _ _ _ _ _ Hs). fold created.
  split; [by destruct (mail_outcome env _)|].
  split; [done|].
  split.
  { assert (created.1 ∈ getContactSubmissions created.2) as Hin.
    { unfold getContactSubmissions. rewrite sort_desc_elem.
      unfold map_values. apply list_elem_of_fmap.
      exists (env_uuid env, created.1). split; [done|].
      apply map_get_Some_elem. subst created.
      unfold createContactSubmission. cbn. apply map_get_set_eq. }
    by destruct (mail_outcome env _). }
  split; [|split].
  - intros Hok%none_thrown. by rewrite (mail_outcome_ok _ _ Hok).
  - intros Hf%some_thrown. destruct (mail_outcome_fails _ _ Hf) as [m ->]. done.
  - intros first rest Heq Hfail%thrown.
    injection Heq as <- <-. split; [done|].
    unfold mail_outcome, posted_contact_mails, contact_mails.
    cbn [mail_run]. rewrite Hfail. done.
Qed.

Lemma X13_witness :
  (postContact accept_all_forms sample_contact_data mail_down_env
     (new_World None)).1
  = json 400 {[ "error" := JStr "Invalid contact data" ]} ∧
  (postContact accept_all_forms sample_contact_data mail_refused_env
     (new_World None)).1.(status) = 201.
Proof.
  destruct (X13_postContact accept_all_forms sample_contact_data
              mail_down_env (new_World None)) as [_ H].
  destruct (H sample_contact_data eq_refl ltac:(by vm_compute))
    as (_ & _ & _ & _ & Hfail & _).
  destruct (X13_postContact accept_all_forms sample_contact_data
              mail_refused_env (new_World None)) as [_ H'].
  destruct (H' sample_contact_data eq_refl ltac:(by vm_compute))
    as (_ & _ & _ & Hok & _).
  split.
  - apply Hfail. eexists. split; [left | reflexivity].
  - rewrite Hok; [reflexivity | by repeat constructor].
Defined.

(** ** The webhook handler, path by path *)

(** X14. A webhook request that does not get past verification changes
    nothing but the log: without a configured client the answer is 503;
    without a signature header or without a webhook secret it is 400
    "Webhook error: Missing signature"; when the signature check throws
    it is 400 with the error's message.  The ledger is not consulted and
    no order is created. *)
Theorem X14_unverified_webhook sdk secret req env w :
  handleStripeWebhook None secret req env w =
    (json 503 {[ "error" := JStr "Stripe is not configured" ]}, w) ∧
  (truthy_str (stripe_signature req) = None ∨ truthy_str secret = None →
   handleStripeWebhook (Some sdk) secret req env w =
     (send 400 "Webhook error: Missing signature",
      add_trace [EffLog "Missing signature or webhook secret"] w)) ∧
  (∀ sig sec message,
   truthy_str (stripe_signature req) = Some sig →
   truthy_str secret = Some sec →
   constructEvent sdk (rawBody req) sig sec = inl message →
   handleStripeWebhook (Some sdk) secret req env w =
     (send 400 ("Webhook Error: " +:+ message),
      add_trace [EffLog ("Webhook signature verification failed: " +:+ message)]
        w)).
Proof.
  unfold handleStripeWebhook. split; [|split].
  - mrun. by destruct w.
  - intros [Hs|Hs]; rewrite Hs; [|destruct (truthy_str (stripe_signature req))];
      by mrun.
  - intros sig sec message -> -> ->. by mrun.
Qed.

Lemma X14_witness :
  (handleStripeWebhook (Some sample_sdk) (Some "whsec_1") unsigned_request
     sample_env (new_World None)).1 = send 400 "Webhook error: Missing signature".
Proof.
  destruct (X14_unverified_webhook sample_sdk (Some "whsec_1") unsigned_request
              sample_env (new_World None)) as (_ & H & _).
  rewrite H; [reflexivity | by left].
Defined.

(** X15. A verified event of a kind other than
    [checkout.session.completed] that is not yet recorded is recorded and
    acknowledged with 200 [{received: true}]: no provider call, no order,
    no mail; the store changes in its ledger only. *)
Theorem X15_other_event_kinds sdk secret req event env w :
  verified sdk secret req event →
  isEventProcessed (db w) (env_dbSelectFails env) (event_id event) (storage w)
    = false →
  event_type event ≠ "checkout.session.completed" →
  let marked :=
    markEventProcessed (db w) (env_dbInsertFails env) (event_id event)
      (storage w) in
  handleStripeWebhook (Some sdk) secret req env w =
    (json 200 {[ "received" := JBool true ]},
     {| storage := marked.2; db := marked.1;
        trace := trace w ++ [EffLedgerCheck (event_id event) false;
                             EffLedgerMark (event_id event)] |}) ∧
  orders marked.2 = orders (storage w) ∧
  orderCounter marked.2 = orderCounter (storage w).
Proof.
  intros Hv Hp Hty marked.
  rewrite (handleStripeWebhook_verified _ _ _ _ _ _ Hv).
  unfold deliver. rewrite Hp, decide_False by done. fold marked.
  split; [done|].
  subst marked.
  unfold markEventProcessed, processedEvents_add.
  destruct (db w) as [t|]; [destruct (db_insert _ _ _) as [[]|]|]; done.
Qed.

Lemma X15_witness :
  (handleStripeWebhook (Some refund_sdk) (Some "whsec_1") sample_request
     sample_env (new_World None)).1 = json 200 {[ "received" := JBool true ]}.
Proof.
  destruct (X15_other_event_kinds refund_sdk (Some "whsec_1") sample_request
              refund_event sample_env (new_World None)) as [H _].
  - by exists "t=1,v1=5257a869", "whsec_1".
  - reflexivity.
  - discriminate.
  - by rewrite H.
Defined.



(** X17. A delivery that fails after the marker is written is never made
    up for.  When the provider lookup of a completed checkout throws, the
    delivery is answered with 500 and creates no order, but the event is
    recorded; the redelivery that the 500 asks for is then acknowledged as
    a duplicate and creates no order either (ledger store not failing). *)
Theorem X17_failed_delivery_is_not_retried sdk secret req req' event env env' w :
  verified sdk secret req event →
  verified sdk secret req' event →
  env_dbSelectFails env = false → env_dbInsertFails env = false →
  env_dbSelectFails env' = false →
  ¬ ledger_has (event_id event) w →
  event_type event = "checkout.session.completed" →
  (fetch_run sdk (event_object event)).2 = None →
  let first := handleStripeWebhook (Some sdk) secret req env w in
  let second := handleStripeWebhook (Some sdk) secret req' env' first.2 in
  first.1 = json 500 {[ "error" := JStr "Webhook handler failed" ]} ∧
  orders (storage first.2) = orders (storage w) ∧
  second.1 = json 200 {[ "received" := JBool true;
                         "message" := JStr "Event already processed" ]} ∧
  storage second.2 = storage first.2 ∧
  count_effects is_order_creation (trace second.2) =
    count_effects is_order_creation (trace w).
Proof.
  intros Hv Hv' Hsel Hins Hsel' Hnot Hty Hfetch first second.
  subst second first.
  rewrite (handleStripeWebhook_verified _ _ _ _ _ _ Hv).
  rewrite (handleStripeWebhook_verified _ _ _ _ _ _ Hv').
  destruct (deliver_step sdk event env w Hsel Hins) as (s1 & Ht1 & Hl1 & _ & Hno).
  destruct (Hno Hnot) as [_ Hc1]. rewrite decide_True, Hfetch in Hc1 by done.
  assert (Hfirst : (deliver sdk event env w).1 = handler_failed ∧
                   orders (storage (deliver sdk event env w).2)
                     = orders (storage w)).
  { unfold deliver. rewrite Hsel.
    destruct (isEventProcessed (db w) false (event_id event) (storage w)) eqn:Hp.
    { by apply isEventProcessed_ledger in Hp. }
    rewrite decide_True by done. unfold materialize_run. rewrite Hfetch.
    split; [done|]. cbn [snd storage].
    unfold markEventProcessed, processedEvents_add.
    destruct (db w) as [t|]; [destruct (db_insert _ _ _) as [[]|]|]; done. }
  destruct Hfirst as [Hr1 Ho1]. split; [done|]. split; [done|].
  set (w1 := (deliver sdk event env w).2) in *.
  unfold deliver at 1 2 3. rewrite Hsel'.
  rewrite (proj2 (isEventProcessed_ledger (event_id event) w1) Hl1).
  cbn [fst snd]. split; [done|]. split; [done|].
  unfold add_trace. cbn [trace]. rewrite Ht1, !count_effects_app, Hc1. cbn. lia.
Qed.

Lemma X17_witness :
  let first := handleStripeWebhook (Some failing_lookup_sdk) (Some "whsec_1")
                 sample_request sample_env (new_World None) in
  (handleStripeWebhook (Some failing_lookup_sdk) (Some "whsec_1")
     sample_request sample_env first.2).1
  = json 200 {[ "received" := JBool true;
                "message" := JStr "Event already processed" ]}.
Proof.
  intros first. subst first.
  destruct (X17_failed_delivery_is_not_retried failing_lookup_sdk
              (Some "whsec_1") sample_request sample_request sample_event
              sample_env sample_env (new_World None))
    as (_ & _ & H & _);
    first [exact H | reflexivity | by apply sample_verified | by vm_compute].
Defined.

(** ** Checkout: amounts that pass, and the provider's answer *)

Lemma digit_val_pretty_N_char d :
  (d < 10)%N → digit_val (pretty_N_char d) = Some (Z.of_N d).
Proof.
  intros Hd.
  assert (d = 0 ∨ d = 1 ∨ d = 2 ∨ d = 3 ∨ d = 4 ∨ d = 5 ∨ d = 6 ∨ d = 7
          ∨ d = 8 ∨ d = 9)%N as Hc by lia.
  repeat (destruct Hc as [->|Hc]; [reflexivity|]). by subst.
Qed.

(** Reading back the digits that [pretty] prints. *)
Lemma read_digits_pretty_N_go x : ∀ s acc cnt,
  ∃ k, read_digits (pretty_N_go x s) acc cnt
       = read_digits s (acc * 10 ^ Z.of_nat k + Z.of_N x) (cnt + k) ∧
       ((0 < x)%N → (0 < k)%nat).
Proof.
  induction (N.lt_wf_0 x) as [x _ IH]; intros s acc cnt.
  destruct (decide (x = 0)%N) as [->|Hx].
  { exists 0%nat. rewrite pretty_N_go_0. split; [|lia].
    f_equal; [cbn; lia | lia]. }
  rewrite pretty_N_go_step by lia.
  destruct (IH (x `div` 10)%N (N.div_lt x 10 ltac:(lia) eq_refl)
              (String (pretty_N_char (x `mod` 10)) s) acc cnt) as (k & Hk & _).
  exists (S k). rewrite Hk. cbn [read_digits].
  rewrite digit_val_pretty_N_char by (apply N.mod_lt; lia).
  split; [|lia]. f_equal; [|lia].
  rewrite Nat2Z.inj_succ, Z.pow_succ_r by lia.
  rewrite N2Z.inj_div, N2Z.inj_mod. cbn [Z.of_N].
  pose proof (Z.div_mod (Z.of_N x) 10 ltac:(lia)). lia.
Qed.

Lemma digit_char_cases c :
  is_Some (digit_val c) →
  is_ws c = false ∧ c ≠ "+"%char ∧ c ≠ "-"%char ∧ c ≠ "I"%char.
Proof.
  destruct c as [[] [] [] [] [] [] [] []]; intros [d Hd];
    (discriminate Hd || done).
Qed.

Lemma pretty_N_go_head x : ∀ s,
  (0 < x)%N → ∃ c rest, pretty_N_go x s = String c rest ∧ is_Some (digit_val c).
Proof.
  induction (N.lt_wf_0 x) as [x _ IH]; intros s Hx.
  rewrite pretty_N_go_step by done.
  destruct (decide (x `div` 10 = 0)%N) as [->|Hd].
  - rewrite pretty_N_go_0. eexists _, _. split; [done|].
    rewrite digit_val_pretty_N_char by (apply N.mod_lt; lia). by eexists.
  - apply IH; [apply N.div_lt; lia | by apply N.neq_0_lt_0].
Qed.

Lemma parse_decimal_digits c rest :
  is_Some (digit_val c) →
  parse_decimal (String c rest) = parse_unsigned false (String c rest) ∧
  strip_prefix "Infinity" (String c rest) = None.
Proof.
  intros (Hws & Hplus & Hminus & HI)%digit_char_cases.
  unfold parse_decimal. cbn [skip_ws]. rewrite Hws. split.
  - destruct c as [[] [] [] [] [] [] [] []]; done.
  - cbn. by rewrite decide_False by done.
Qed.

Lemma parseFloat_positive p :
  parse_decimal (pretty (Z.pos p)) = (PDecimal false (Z.pos p) 0, "").
Proof.
  change (pretty (Z.pos p)) with (pretty_N_go (N.pos p) "").
  destruct (pretty_N_go_head (N.pos p) "" ltac:(lia)) as (c & rest & Hs & Hc).
  destruct (read_digits_pretty_N_go (N.pos p) "" 0 0%nat) as (k & Hk & Hpos).
  specialize (Hpos ltac:(lia)).
  rewrite Hs in *. destruct (parse_decimal_digits c rest Hc) as [-> Hinf].
  unfold parse_unsigned. rewrite Hinf, Hk. cbn [read_digits].
  destruct k as [|k]; [lia|]. cbn. done.
Qed.

(** X18. [parseFloat] reads a whole number back exactly, so for a numeric
    amount the checkout validation rejects exactly the numbers that are
    not positive: zero is falsy, a negative number prints with a minus
    sign, and a positive one parses to itself. *)
Theorem X18_whole_number_amounts z :
  (0 < z → parseFloat (JNum z) = PDecimal false z 0) ∧
  (amount_rejected (JNum z) = true ↔ z ≤ 0).
Proof.
  split.
  - intros Hz. destruct z as [|p|p]; try lia.
    unfold parseFloat. cbn [js_ToString]. by rewrite parseFloat_positive.
  - split.
    + intros Hr. destruct z as [|p|p]; try lia.
      unfold amount_rejected, parseFloat in Hr. cbn [js_ToString falsy] in Hr.
      rewrite parseFloat_positive in Hr. by cbn in Hr.
    + apply nonpositive_number_rejected.
Qed.

Lemma X18_witness :
  parseFloat (JNum 25) = PDecimal false 25 0 ∧ amount_rejected (JNum 25) = false.
Proof.
  split; [apply (X18_whole_number_amounts 25); lia|].
  apply not_true_is_false. intros Hr.
  apply (X18_whole_number_amounts 25) in Hr. lia.
Defined.

(** X19. For an amount that passes the validation, checkout initiation
    calls the provider exactly once and touches neither store nor ledger:
    when the provider returns a session the answer is 200 with its id and
    URL; when the provider call throws the answer is 500 "Failed to create
    checkout session.". *)
Theorem X19_checkout_provider_outcome sdk baseUrl (body : JsObject) w :
  amount_rejected (field body "amount") = false →
  let params := checkout_params baseUrl body in
  let r := (createStripeCheckoutSession (Some sdk) baseUrl body w).1 in
  let w' := (createStripeCheckoutSession (Some sdk) baseUrl body w).2 in
  storage w' = storage w ∧ db w' = db w ∧
  (∀ session, sessions_create sdk params = Some session →
     r = json 200 {[ "sessionId" := JStr (session_id session);
                     "url" := opt_str (session_url session) ]} ∧
     trace w' = trace w ++ [EffProvider (SessionsCreate params)]) ∧
  (sessions_create sdk params = None →
     r = json 500 {[ "error" := JStr "Failed to create checkout session." ]} ∧
     trace w' = trace w ++ [EffProvider (SessionsCreate params);
                            EffLog "Failed to create checkout session:"]).
Proof.
  intros Hok params r w'. subst r w'.
  unfold createStripeCheckoutSession. rewrite Hok. fold params. mrun.
  destruct (sessions_create sdk params) as [session|]; cbn [fst snd storage db trace].
  - split; [done|]. split; [done|]. split; [|done].
    by intros ? [= <-].
  - split; [done|]. split; [done|]. split; [done|]. intros _.
    split; [done|]. by rewrite <-app_assoc.
Qed.

Lemma X19_witness :
  (createStripeCheckoutSession (Some failing_lookup_sdk) None
     {[ "amount" := JStr "12.50" ]} (new_World None)).1
  = json 500 {[ "error" := JStr "Failed to create checkout session." ]}.
Proof.
  destruct (X19_checkout_provider_outcome failing_lookup_sdk None
              {[ "amount" := JStr "12.50" ]} (new_World None))
    as (_ & _ & _ & H); [by vm_compute|].
  apply H. reflexivity.
Defined.

(** ** The donation success redirect *)

(** X20. The donation success route always answers with a redirect to one
    of its five targets, and whenever the target is not the success
    indicator, store and database are exactly as before: nothing is
    created and nothing is marked.  Without a session id the target is
    [missing_session] and the world is untouched. *)
Theorem X20_donation_failures_change_nothing stripe schemas sid env w :
  let r := (donationSuccess stripe schemas sid env w).1 in
  let w' := (donationSuccess stripe schemas sid env w).2 in
  (∃ url, r = redirect url ∧ url ∈ donation_redirects) ∧
  (r ≠ redirect "/?donation_success=true" →
   storage w' = storage w ∧ db w' = db w) ∧
  (truthy_str sid = None →
   donationSuccess stripe schemas sid env w =
     (redirect "/?donation_error=missing_session", w)).
Proof.
  intros r w'. subst r w'. unfold donationSuccess, donation_redirects.
  destruct (truthy_str sid) as [id|]; mrun;
    [|split; [eexists; split; [done|set_solver]|split; [done|by destruct w]]].
  split_and!; [| |done].
  all: destruct (isEventProcessed _ _ _ _); mrun;
    [first [eexists; split; [done|set_solver] | done]|].
  all: destruct stripe as [sdk|]; mrun;
    [|first [eexists; split; [done|set_solver] | done]].
  all: destruct (sessions_retrieve sdk id) as [session|]; mrun;
    [|first [eexists; split; [done|set_solver] | done]].
  all: destruct (_ || _); mrun;
    [first [eexists; split; [done|set_solver] | done]|].
  all: destruct (insertDonationSchema schemas _) as [validated|]; mrun;
    [|first [eexists; split; [done|set_solver] | done]].
  all: destruct (createDonation _ _ _ _) as [donation st']; mrun.
  all: destruct (markEventProcessed _ _ _ _) as [d st'']; mrun.
  all: first [eexists; split; [done|set_solver] | done].
Qed.

Lemma X20_witness :
  donationSuccess (Some donation_sdk) accept_all None sample_env (new_World None)
  = (redirect "/?donation_error=missing_session", new_World None).
Proof.
  apply (X20_donation_failures_change_nothing (Some donation_sdk) accept_all
           None sample_env (new_World None)). reflexivity.
Defined.

Lemma donationSuccess_fresh sdk schemas sid session validated env w :
  sid ≠ "" →
  isEventProcessed (db w) (env_dbSelectFails env) ("donation_" +:+ sid)
    (storage w) = false →
  sessions_retrieve sdk sid = Some session →
  paid_donation session →
  insertDonationSchema schemas (donationData_of session) = Some validated →
  let created :=
    createDonation validated (env_uuid env) (env_now env) (storage w) in
  let marked :=
    markEventProcessed (db w) (env_dbInsertFails env) ("donation_" +:+ sid)
      created.2 in
  donationSuccess (Some sdk) schemas (Some sid) env w =
    (redirect "/?donation_success=true",
     {| storage := marked.2; db := marked.1;
        trace := trace w ++
          [EffLedgerCheck ("donation_" +:+ sid) false;
           EffProvider (SessionsRetrieve sid);
           EffCreateDonation created.1;
           EffLedgerMark ("donation_" +:+ sid)] |}).
Proof.
  intros Hsid Hp Hr (Hpaid & Hty & Hname & Hmail) Hschema created marked.
  unfold donationSuccess. cbn [truthy_str]. rewrite decide_False by done.
  mrun. rewrite Hp. mrun. rewrite Hr. mrun.
  rewrite (bool_decide_eq_false_2 (payment_status session ≠ "paid"))
    by (by intros []).
  rewrite (bool_decide_eq_false_2 (_ ≠ Some "donation")) by (by intros []).
  rewrite !bool_decide_eq_false_2 by done.
  cbn [orb].
  match goal with |- context [insertDonationSchema schemas ?x] =>
    change x with (donationData_of session) end.
  rewrite Hschema. mrun.
  subst marked created.
  destruct (createDonation validated (env_uuid env) (env_now env) (storage w))
    as [donation st']. mrun.
  destruct (markEventProcessed _ _ _ _) as [d st'']. mrun.
  by rewrite <-!app_assoc.
Qed.

(** X21. A paid donation session that is not yet recorded is turned into
    exactly one donation.  The first visit of the success redirect stores
    the donation (the schema accepting the data built from the session,
    whose amount is the session's total, of fewer than sixteen digits in
    cents, with two decimals), records the session and redirects to the
    success indicator; a second visit
    redirects to the success indicator as well and changes neither store
    nor database (ledger store not failing). *)
Theorem X21_donation_is_recorded_once sdk schemas sid session validated env env' w :
  sid ≠ "" →
  env_dbSelectFails env = false → env_dbInsertFails env = false →
  env_dbSelectFails env' = false →
  ¬ ledger_has ("donation_" +:+ sid) w →
  sessions_retrieve sdk sid = Some session →
  paid_donation session →
  (∀ c, amount_total session = Some c → cents_in_range c) →
  insertDonationSchema schemas (donationData_of session) = Some validated →
  let created :=
    createDonation validated (env_uuid env) (env_now env) (storage w) in
  let first := donationSuccess (Some sdk) schemas (Some sid) env w in
  let second := donationSuccess (Some sdk) schemas (Some sid) env' first.2 in
  first.1 = redirect "/?donation_success=true" ∧
  map_get (env_uuid env) (donations (storage first.2)) = Some created.1 ∧
  (∀ c, amount_total session = Some c → c ≠ 0 →
     donationData_of session !! "amount" = Some (JStr (div100_toFixed2 c))) ∧
  second.1 = redirect "/?donation_success=true" ∧
  storage second.2 = storage first.2 ∧ db second.2 = db first.2 ∧
  count_effects is_donation_creation (trace second.2) =
    S (count_effects is_donation_creation (trace w)).
Proof.
  intros Hsid Hsel Hins Hsel' Hnot Hr Hpaid _ Hschema created first second.
  subst second first.
  assert (Hp : isEventProcessed (db w) (env_dbSelectFails env)
                 ("donation_" +:+ sid) (storage w) = false).
  { rewrite Hsel. apply not_true_is_false. by intros ?%isEventProcessed_ledger. }
  rewrite (donationSuccess_fresh _ _ _ _ _ _ _ Hsid Hp Hr Hpaid Hschema).
  fold created. rewrite Hins. cbn [fst snd].
  destruct (markEventProcessed (db w) false ("donation_" +:+ sid) created.2)
    as [d st1] eqn:Hm. cbn [fst snd].
  set (w1 := {| storage := st1; db := d; trace := _ |}).
  assert (Hdon : donations st1 = donations created.2).
  { revert Hm. unfold markEventProcessed, processedEvents_add.
    destruct (db w) as [t|]; [destruct (db_insert _ _ _) as [[]|]|];
      by intros [= <- <-]. }
  assert (Hled : ledger_has ("donation_" +:+ sid) w1).
  { pose proof (proj1 (markEventProcessed_ledger _ ("donation_" +:+ sid) _ _ _ _ Hm)
                  (or_intror eq_refl)) as H.
    unfold ledger_has in *. cbn [db storage] in *. exact H. }
  apply isEventProcessed_ledger in Hled.
  split; [done|]. split.
  { change (storage w1) with st1. rewrite Hdon. subst created.
    unfold createDonation. cbn.
    apply map_get_set_eq. }
  split.
  { intros c Hc Hc0. unfold donationData_of. rewrite Hc.
    rewrite (proj2 (Z.eqb_neq c 0)) by done. by simplify_map_eq. }
  unfold donationSuccess. cbn [truthy_str]. rewrite decide_False by done.
  mrun. rewrite Hsel', Hled. mrun.
  split; [done|]. split; [done|]. split; [done|].
  subst w1. cbn [trace]. rewrite !count_effects_app. cbn. lia.
Qed.

Lemma X21_witness :
  let first := donationSuccess (Some donation_sdk) accept_all (Some "cs_don_1")
                 sample_env (new_World None) in
  let second := donationSuccess (Some donation_sdk) accept_all (Some "cs_don_1")
                  sample_env first.2 in
  second.1 = redirect "/?donation_success=true" ∧
  storage second.2 = storage first.2.
Proof.
  intros first second. subst second first.
  destruct (X21_donation_is_recorded_once donation_sdk accept_all "cs_don_1"
              donation_session (donationData_of donation_session)
              sample_env sample_env (new_World None))
    as (_ & _ & _ & H1 & H2 & _);
    first [by intros c [= <-]; vm_compute | by split | done | by vm_compute
          | repeat split; by vm_compute].
Defined.

(** ** Donation checkout *)

Lemma negative_lt_one t :
  let p := (parse_unsigned true t).1 in isNaN p || lt_one p = true.
Proof.
  unfold parse_unsigned.
  destruct (strip_prefix "Infinity" t); [done|].
  destruct (read_digits t 0 0) as [[m1 n1] r1].
  set (mid := match r1 with String "." r => _ | _ => _ end).
  destruct mid as [[m n2] r2].
  destruct ((n1 =? 0) && (n2 =? 0))%nat; [done|].
  by destruct (read_exponent r2).
Qed.

(** X22. [POST /stripe/create-donation-checkout] turns away an amount that
    is falsy, in which [parseFloat] finds no number, or whose number is
    below 1, with 400 and without building a client or calling the
    provider (for a plain amount, such as a string of ASCII characters);
    a whole-number amount is turned away exactly when it is below 1.  An
    amount that passes leads to one provider call whose metadata marks the
    session as a donation, which is what the success redirect later
    requires (amount and donor name being values whose string form the
    model gives exactly). *)
Theorem X22_donation_checkout stripe sdk baseUrl (body : JsObject) z w :
  (plain_value (field body "amount") = true →
   donation_amount_rejected (field body "amount") = true →
   createDonationCheckout stripe baseUrl body w =
     (json 400 {[ "error" := JStr "Invalid amount. Minimum donation is $1." ]},
      w)) ∧
  (donation_amount_rejected (JNum z) = true ↔ z < 1) ∧
  (printable (field body "amount") = true →
   printable (field body "donorName") = true →
   donation_amount_rejected (field body "amount") = false →
   let params := donation_checkout_params baseUrl body in
   params !! "metadata.type" = Some (JStr "donation") ∧
   ∀ session, sessions_create sdk params = Some session →
     createDonationCheckout (Some sdk) baseUrl body w =
       (json 200 {[ "sessionId" := JStr (session_id session);
                    "url" := opt_str (session_url session) ]},
        add_trace [EffProvider (SessionsCreate params)] w)).
Proof.
  split; [|split].
  - intros _ Hr. unfold createDonationCheckout. rewrite Hr. mrun. by destruct w.
  - unfold donation_amount_rejected, parseFloat. cbn [js_ToString falsy].
    destruct z as [|p|p].
    + split; [lia | done].
    + rewrite parseFloat_positive. cbn. split; [done | lia].
    + change (pretty (Z.neg p)) with (String "-" (pretty (N.pos p))).
      change (parse_decimal (String "-" (pretty (N.pos p))))
        with (parse_unsigned true (pretty (N.pos p))).
      split; [lia|]. intros _. rewrite <-orb_assoc. apply orb_true_iff. right.
      apply negative_lt_one.
  - intros _ _ Hok params. split; [subst params; by vm_compute|].
    intros session Hs. unfold createDonationCheckout. rewrite Hok.
    fold params. mrun. by rewrite Hs.
Qed.

Lemma X22_witness :
  createDonationCheckout None None {[ "amount" := JStr "0.99" ]} (new_World None)
  = (json 400 {[ "error" := JStr "Invalid amount. Minimum donation is $1." ]},
     new_World None) ∧
  (createDonationCheckout (Some sample_sdk) None {[ "amount" := JNum 1 ]}
     (new_World None)).1.(status) = 200.
Proof.
  destruct (X22_donation_checkout None sample_sdk None
              {[ "amount" := JStr "0.99" ]} 0 (new_World None)) as (H1 & _ & _).
  destruct (X22_donation_checkout None sample_sdk None
              {[ "amount" := JNum 1 ]} 0 (new_World None)) as (_ & _ & H3).
  split; [apply H1; by vm_compute|].
  destruct H3 as [_ H3]; [by vm_compute..|].
  by rewrite (H3 sample_session eq_refl).
Defined.

(** ** Manual payments *)

Lemma postManualPayment_accepted (body : JsObject) amount env w :
  (field body "paymentMethod" = JStr "cashapp" ∨
   field body "paymentMethod" = JStr "crypto") →
  amount_toString (field body "amount") = Some amount →
  let created :=
    createOrder (manual_orderData body amount) (env_uuid env) (env_now env)
      (storage w) in
  let mails := manual_mails body amount created.1 in
  postManualPayment body env w =
  match mail_outcome env mails with
  | Ok _ =>
      (ManualPaid created.1 (manual_instructions body),
       {| storage := created.2; db := db w;
          trace := trace w ++ [EffCreateOrder created.1] ++
                   (mail_run env mails).1 |})
  | Throw _ =>
      (ManualAnswer (json 500 {[ "error" := JStr "Failed to process payment" ]}),
       {| storage := created.2; db := db w;
          trace := trace w ++ [EffCreateOrder created.1] ++
                   (mail_run env mails).1 ++
                   [EffLog "Error processing manual payment:"] |})
  end.
Proof.
  intros Hpm Ha created mails. unfold postManualPayment.
  assert (bool_decide (field body "paymentMethod" = JStr "cashapp")
          || bool_decide (field body "paymentMethod" = JStr "crypto") = true)
    as ->.
  { apply orb_true_iff. destruct Hpm as [H|H]; [left|right];
      by apply bool_decide_eq_true. }
  cbn [negb]. rewrite Ha. mrun. subst mails created.
  destruct (createOrder (manual_orderData body amount) (env_uuid env)
              (env_now env) (storage w)) as [order st'] eqn:Hc.
  mrun. rewrite sendOrderConfirmation_spec.
  fold (manual_mails body amount order). unfold mail_outcome.
  destruct (mail_run env (manual_mails body amount order)) as [ml [m|]];
    cbn [fst snd]; unfold add_trace; cbn [storage db trace];
    by rewrite <-?app_assoc.
Qed.

(** X23. [POST /api/payment/manual].  A payment method other than
    "cashapp" and "crypto" is answered with 400 and nothing happens; a
    missing amount is answered with 500 before any order is created.
    Otherwise (name, address and description being strings, the amount a
    value whose string form the model gives exactly) an order is created
    on every request (no ledger is consulted), labelled "Cash App" or
    "Cryptocurrency", with the amount as a string; when no send throws
    the answer carries the order and the payment instructions; when a
    send throws the answer is 500, yet the order stays in the store. *)
Theorem X23_manual_payment (body : JsObject) env w :
  (field body "paymentMethod" ≠ JStr "cashapp" →
   field body "paymentMethod" ≠ JStr "crypto" →
   postManualPayment body env w =
     (ManualAnswer (json 400 {[ "error" := JStr "Invalid payment method" ]}), w)) ∧
  ((field body "paymentMethod" = JStr "cashapp" ∨
    field body "paymentMethod" = JStr "crypto") →
   (amount_toString (field body "amount") = None →
    (postManualPayment body env w).1 =
      ManualAnswer (json 500 {[ "error" := JStr "Failed to process payment" ]}) ∧
    storage (postManualPayment body env w).2 = storage w) ∧
   (∀ amount, amount_toString (field body "amount") = Some amount →
    printable (field body "amount") = true →
    string_fields body ["customerName"; "customerEmail"; "description"] = true →
    let created :=
      createOrder (manual_orderData body amount) (env_uuid env) (env_now env)
        (storage w) in
    let answer := (postManualPayment body env w).1 in
    let w' := (postManualPayment body env w).2 in
    storage w' = created.2 ∧
    getOrder (env_uuid env) (storage w') = Some created.1 ∧
    count_effects is_order_creation (trace w') =
      S (count_effects is_order_creation (trace w)) ∧
    created.1 !! "amount" = Some (JStr amount) ∧
    created.1 !! "paymentMethod" =
      Some (JStr (if decide (field body "paymentMethod" = JStr "cashapp")
                  then "Cash App" else "Cryptocurrency")) ∧
    (Forall (λ o, env_send env (mail_of o) ≠ Thrown)
       (manual_mails body amount created.1) →
     answer = ManualPaid created.1 (manual_instructions body)) ∧
    ((∃ o, o ∈ manual_mails body amount created.1 ∧
           env_send env (mail_of o) = Thrown) →
     answer = ManualAnswer
                (json 500 {[ "error" := JStr "Failed to process payment" ]})))).
Proof.
  split.
  { intros H1 H2. unfold postManualPayment.
    rewrite !bool_decide_eq_false_2 by done. done. }
  intros Hpm. split.
  { intros Ha. unfold postManualPayment.
    assert (bool_decide (field body "paymentMethod" = JStr "cashapp")
            || bool_decide (field body "paymentMethod" = JStr "crypto") = true)
      as ->.
    { apply orb_true_iff. destruct Hpm as [H|H]; [left|right];
        by apply bool_decide_eq_true. }
    cbn [negb]. by rewrite Ha. }
  intros amount Ha _ _ created answer w'. subst answer w'.
  rewrite (postManualPayment_accepted _ _ _ _ Hpm Ha). fold created.
  assert (Hget : getOrder (env_uuid env) created.2 = Some created.1).
  { subst created. rewrite createOrder_eq. cbn. apply map_get_set_eq. }
  pose proof (mail_run_quiet env (manual_mails body amount created.1)) as Hq.
  assert (Hcount : count_effects is_order_creation
            (mail_run env (manual_mails body amount created.1)).1 = 0%nat).
  { apply count_effects_quiet; [by intros []|done]. }
  split; [by destruct (mail_outcome env _)|].
  split; [by destruct (mail_outcome env _)|].
  split.
  { destruct (mail_outcome env _); cbn [snd trace];
      rewrite !count_effects_app, Hcount; cbn; lia. }
  split.
  { subst created. rewrite createOrder_fields; [by simplify_map_eq|].
    unfold order_own_fields. set_solver. }
  split.
  { subst created. rewrite createOrder_fields; [by simplify_map_eq|].
    unfold order_own_fields. set_solver. }
  split.
  - intros Hok%none_thrown. by rewrite (mail_outcome_ok _ _ Hok).
  - intros Hf%some_thrown. destruct (mail_outcome_fails _ _ Hf) as [m ->]. done.
Qed.

Lemma X23_witness :
  ∃ order instructions,
    (postManualPayment sample_manual_body mail_refused_env (new_World None)).1
      = ManualPaid order instructions ∧
    order !! "paymentMethod" = Some (JStr "Cash App") ∧
    order !! "amount" = Some (JStr "40").
Proof.
  destruct (X23_manual_payment sample_manual_body mail_refused_env
              (new_World None)) as [_ H].
  destruct H as [_ H]; [by left|].
  destruct (H "40" eq_refl ltac:(by vm_compute) ltac:(by vm_compute))
    as (_ & _ & _ & Ha & Hp & Hok & _).
  eexists _, _. split; [apply Hok; by repeat constructor|].
  split; [exact Hp | exact Ha].
Defined.
